(** * The billing-code recommendation pipeline of [src/agent/graph.py]

    A shallow embedding of the pipeline stages ([model], [validate],
    [add_co_occurrence], [clear]), of the co-occurrence table built at import
    time and of the chain of edges that orders the stages, followed by the
    properties of the specification that concern them.

    The generative services, the vector index and the helpers of
    [agent.utils] are outside the file: their answers enter the stages as
    arguments. *)

From Stdlib Require Import ZArith QArith String List Lia.
From stdpp Require Import base option list gmap pretty.

Local Open Scope string_scope.
Local Open Scope list_scope.
Local Open Scope Z_scope.

(** ** Data model *)

(** The dictionaries that travel in [diagnosis["vykony"]] and in the billing
    catalogue: keys [code], [name], [description] and, once a stage has set
    it, [explanation].  The code reads the explanation with
    [v.get("explanation")], which does not tell a missing key from a [None]
    value, so both are [None] here. *)
Record Vykon := mkVykon {
  code : Z;
  name : string;
  description : option string;
  explanation : option string
}.

(** [{**vykon, "explanation": e}] *)
Definition with_explanation (vykon : Vykon) (e : option string) : Vykon :=
  {| code := code vykon; name := name vykon;
     description := description vykon; explanation := e |}.

(** [class MKN10Code(BaseModel)] of [preprocess]. *)
Record MKN10Code := mkMKN10Code {
  mkn_code : string;
  mkn_description : string
}.

(** [Literal["keep", "remove"]] *)
Inductive Action := keep | remove.

(** [class VykonAction(BaseModel)] of [validate]. *)
Module VykonAction.

Record t := mk {
  code : Z;
  explanation : string;
  action : Action
}.

End VykonAction.

(** Modelled from the spec: [agent.state.AgentState] is not part of the
    sources at hand; the specification gives the state the fields [report],
    [preprocess_diagnosis], [diagnosis] and [validity].  As the stages read
    them, [preprocess_diagnosis] holds the list under its key ["codes"] and
    [diagnosis] the list under its key ["vykony"]; [None] is the dictionary
    without that key. *)
Record AgentState := mkAgentState {
  report : string;
  preprocess_diagnosis : option (list MKN10Code);
  diagnosis : option (list Vykon);
  validity : option (list VykonAction.t)
}.

(** [state.preprocess_diagnosis.get("codes", [])] *)
Definition get_codes (state : AgentState) : list MKN10Code :=
  default [] (preprocess_diagnosis state).

(** [state.diagnosis.get("vykony", [])] *)
Definition get_vykony (state : AgentState) : list Vykon :=
  default [] (diagnosis state).

(** A stage returns a partial update, merged into the state key by key. *)
Definition set_diagnosis (state : AgentState) (vykony : list Vykon) : AgentState :=
  {| report := report state;
     preprocess_diagnosis := preprocess_diagnosis state;
     diagnosis := Some vykony;
     validity := validity state |}.

(** ** The [validate] stage: keep/remove reconciliation *)

Definition is_remove (a : Action) : bool :=
  match a with remove => true | keep => false end.

(** [next((v for v in validation.vykony if v.code == vykon["code"]), None)] *)
Definition next_verdict (verdicts : list VykonAction.t) (c : Z)
  : option VykonAction.t :=
  List.find (fun v => VykonAction.code v =? c) verdicts.

(** The loop that fills [new_vykony] in [validate]. *)
Definition validate_new_vykony (verdicts : list VykonAction.t)
    (vykony : list Vykon) : list Vykon :=
  fold_left
    (fun new_vykony vykon =>
       match next_verdict verdicts (code vykon) with
       | None => new_vykony ++ [with_explanation vykon None]
       | Some validity =>
           if is_remove (VykonAction.action validity) then new_vykony
           else new_vykony ++
                  [with_explanation vykon
                     (Some (VykonAction.explanation validity))]
       end)
    vykony [].

(** [validate], given the answer [verdicts] of the validation service. *)
Definition validate (verdicts : list VykonAction.t) (state : AgentState)
  : AgentState :=
  {| report := report state;
     preprocess_diagnosis := preprocess_diagnosis state;
     diagnosis := Some (validate_new_vykony verdicts (get_vykony state));
     validity := Some verdicts |}.

(** What the loop body decides for one record. *)
Definition verdict_on (verdicts : list VykonAction.t) (vykon : Vykon)
  : option Vykon :=
  match next_verdict verdicts (code vykon) with
  | None => Some (with_explanation vykon None)
  | Some validity =>
      if is_remove (VykonAction.action validity) then None
      else Some (with_explanation vykon
                   (Some (VykonAction.explanation validity)))
  end.


(** ** The [clear] stage: identity dedup *)

(** A Python [dict] with integer keys, as the list of its items in insertion
    order: assigning to a key that is present replaces the value where the
    key stands, assigning to a new key appends an item. *)
Fixpoint dict_set {V : Type} (k : Z) (v : V) (d : list (Z * V)) : list (Z * V) :=
  match d with
  | [] => [(k, v)]
  | (k', v') :: d' =>
      if k' =? k then (k, v) :: d' else (k', v') :: dict_set k v d'
  end.

(** [d.values()] *)
Definition dict_values {V : Type} (d : list (Z * V)) : list V := map snd d.

(** [{int(v["code"]): v for v in vykony}] *)
Definition dict_by_code (vykony : list Vykon) : list (Z * Vykon) :=
  fold_left (fun d v => dict_set (code v) v d) vykony [].

(** The two comprehensions of [clear] that pair every record with its
    catalogue entry and keep [{**valid, "explanation": v.get("explanation")}]
    for the pairs whose entry was found.  [find_vykon_by_code] stands for
    [utils.find_vykon_by_code]. *)
Definition resolved_vykony (find_vykon_by_code : Z → option Vykon)
    (vykony : list Vykon) : list Vykon :=
  let vykony := map (fun v => (v, find_vykon_by_code (code v))) vykony in
  omap (fun p : Vykon * option Vykon =>
          match snd p with
          | Some valid => Some (with_explanation valid (explanation (fst p)))
          | None => None
          end) vykony.

(** The list [clear] leaves in [diagnosis["vykony"]]. *)
Definition clear_vykony (find_vykon_by_code : Z → option Vykon)
    (vykony : list Vykon) : list Vykon :=
  dict_values (dict_by_code (resolved_vykony find_vykon_by_code vykony)).

Definition clear (find_vykon_by_code : Z → option Vykon) (state : AgentState)
  : AgentState :=
  set_diagnosis state (clear_vykony find_vykon_by_code (get_vykony state)).

(** Vocabulary for the position and the content of the record that survives
    for a code.  [first_occurrences] lists the distinct codes of a list in
    the order in which they first appear; [last_with_code c l] is the last
    record of [l] that carries the code [c]. *)
Fixpoint first_occurrences_from (seen : list Z) (codes : list Z) : list Z :=
  match codes with
  | [] => []
  | c :: rest =>
      if bool_decide (c ∈ seen) then first_occurrences_from seen rest
      else c :: first_occurrences_from (seen ++ [c]) rest
  end.

Definition first_occurrences (codes : list Z) : list Z :=
  first_occurrences_from [] codes.

Fixpoint last_with_code (c : Z) (l : list Vykon) : option Vykon :=
  match l with
  | [] => None
  | v :: rest =>
      match last_with_code c rest with
      | Some w => Some w
      | None => if code v =? c then Some v else None
      end
  end.

(** Every value of a dictionary with the value that a list of later
    assignments leaves under its key. *)
Definition settle (l : list Vykon) (item : Z * Vykon) : Z * Vykon :=
  (fst item, default (snd item) (last_with_code (fst item) l)).

(** The dedup as the specification words it: every code keeps one record, in
    the place of the last occurrence of the code. *)
Fixpoint keep_last_occurrences (l : list Vykon) : list Vykon :=
  match l with
  | [] => []
  | v :: rest =>
      if existsb (fun w => code w =? code v) rest
      then keep_last_occurrences rest
      else v :: keep_last_occurrences rest
  end.

Definition dedup_at_last_occurrence (find_vykon_by_code : Z → option Vykon)
    (vykony : list Vykon) : list Vykon :=
  keep_last_occurrences (resolved_vykony find_vykon_by_code vykony).

(** Modelled from the spec: [utils.find_vykon_by_code] is not part of the
    sources at hand; the Reference Catalogs are "static lookup tables mapping
    billing code to [{code, name, description}]", so the lookup returns the
    first entry of the catalogue [vykony_cis] that has the code. *)
Definition find_in_catalog (vykony_cis : list Vykon) (c : Z) : option Vykon :=
  List.find (fun v => code v =? c) vykony_cis.

(** ** The [model] stage: candidate codes and the constrained schema *)

(** JSON values, for the schema constants and for the objects a generative
    service answers with. *)
#[warnings="-register-all"]
Inductive json :=
  | JNull
  | JInt (z : Z)
  | JStr (s : string)
  | JList (items : list json)
  | JObj (fields : list (string * json)).

(** One entry of ["definitions"]: an object schema whose [properties] each
    fix a ["const"], with its list of [required] keys. *)
Record CodeSchema := mkCodeSchema {
  properties : list (string * json);
  required : list string;
  title : string
}.

(** Python's truth value of [description]: [None] and the empty string are
    false. *)
Definition truthy (description : option string) : bool :=
  match description with
  | Some s => negb (String.eqb s "")
  | None => false
  end.

(** [add_code]: the key [str(code)] and the definition stored under it; the
    reference appended to [code_refs] is ["#/definitions/" + str(code)] and is
    kept as that key. *)
Definition add_code (code : Z) (name : string) (description : option string)
  : string * CodeSchema :=
  (pretty code,
   {| properties :=
        [("code", JInt code); ("name", JStr name)] ++
        (if truthy description
         then [("description", JStr (default "" description))]
         else []);
      required :=
        if truthy description then ["code"; "name"; "description"]
        else ["code"; "name"];
      title := pretty code |}).

(** The part of [schema] that depends on the candidates: ["definitions"],
    and under ["properties"]["vykony"] the ["anyOf"] list of references and
    ["minItems"]. *)
Record Schema := mkSchema {
  definitions : gmap string CodeSchema;
  any_of : list string;
  min_items : nat
}.

(** The [reduce] over [suggested_vykony]; every call of [add_code] also
    appends its reference to [code_refs]. *)
Definition build_schema (suggested_vykony : list Vykon) : Schema :=
  let acc_refs :=
    fold_left
      (fun (st : gmap string CodeSchema * list string) item =>
         let entry := add_code (code item) (name item) (description item) in
         (<[fst entry := snd entry]> (fst st), snd st ++ [fst entry]))
      suggested_vykony (∅, []) in
  {| definitions := fst acc_refs; any_of := snd acc_refs; min_items := 1 |}.

(** JSON Schema validation, for the keywords the schema uses. *)
Fixpoint field (key : string) (fields : list (string * json)) : option json :=
  match fields with
  | [] => None
  | (k, value) :: rest => if String.eqb k key then Some value else field key rest
  end.

(** ["const"] together with ["type"]: an integer or a string constant. *)
Definition matches_const (const value : json) : bool :=
  match const, value with
  | JInt a, JInt b => a =? b
  | JStr a, JStr b => String.eqb a b
  | _, _ => false
  end.

Definition validates_code_schema (d : CodeSchema) (item : json) : bool :=
  match item with
  | JObj fields =>
      forallb (fun key => bool_decide (is_Some (field key fields))) (required d)
      && forallb
           (fun p : string * json =>
              match field (fst p) fields with
              | Some value => matches_const (snd p) value
              | None => true
              end)
           (properties d)
  | _ => false
  end.

(** ["items": {"anyOf": code_refs}] *)
Definition validates_any_of (schema : Schema) (item : json) : bool :=
  existsb
    (fun ref =>
       match definitions schema !! ref with
       | Some d => validates_code_schema d item
       | None => false
       end)
    (any_of schema).

(** ["vykony": {"type": "array", "items": ..., "minItems": 1}] *)
Definition validates_vykony (schema : Schema) (value : json) : bool :=
  match value with
  | JList items =>
      (min_items schema <=? length items)%nat
      && forallb (validates_any_of schema) items
  | _ => false
  end.

(** The billing code an answered object carries. *)
Definition item_code (item : json) : option Z :=
  match item with
  | JObj fields =>
      match field "code" fields with
      | Some (JInt c) => Some c
      | _ => None
      end
  | _ => None
  end.

(** The loop that fills [suggested_vykony] in [model] and [validate];
    [get_vykony_per_diagnosis] stands for [utils.get_vykony_per_diagnosis]. *)
Definition suggested_vykony (get_vykony_per_diagnosis : MKN10Code → list Vykon)
    (state : AgentState) : list Vykon :=
  fold_left (fun suggested item => suggested ++ get_vykony_per_diagnosis item)
    (get_codes state) [].

(** [model]; [select_codes] is the code-selection service called with the
    schema, the diagnoses that fill the prompt and the report, and answers
    with the [diagnosis] dictionary. *)
Definition model (get_vykony_per_diagnosis : MKN10Code → list Vykon)
    (select_codes : Schema → list MKN10Code → string → option (list Vykon))
    (state : AgentState) : AgentState :=
  let schema := build_schema (suggested_vykony get_vykony_per_diagnosis state) in
  {| report := report state;
     preprocess_diagnosis := preprocess_diagnosis state;
     diagnosis := select_codes schema (get_codes state) (report state);
     validity := validity state |}.

(** ** The co-occurrence table built when the module is loaded *)

(** The rows of [vyk_23_vykony_new.csv] that the code uses: the document
    [CDOKL] and the billing code [KOD] of every billed item. *)
Record VykonRow := mkVykonRow {
  CDOKL : Z;
  KOD : Z
}.

(** The column labels of [pd.get_dummies(...)]: the distinct codes.  Labels
    are looked up by value, so their order plays no part below. *)
Definition kody (vykony : list VykonRow) : list Z :=
  remove_dups (map KOD vykony).

(** The groups of [.groupby("CDOKL")]. *)
Definition doklady (vykony : list VykonRow) : list Z :=
  remove_dups (map CDOKL vykony).

(** [vykony_pivot]: the indicator columns summed per document, that is the
    number of rows of the document that carry the code. *)
Definition vykony_pivot (vykony : list VykonRow) (cdokl kod : Z) : Z :=
  Z.of_nat
    (length
       (List.filter (fun r => (CDOKL r =? cdokl) && (KOD r =? kod)) vykony)).

Definition sum_Z (l : list Z) : Z := fold_right Z.add 0 l.

(** [np.dot(vykony_pivot.T, vykony_pivot)] followed by
    [np.fill_diagonal(co_occurrence_matrix, 0)]. *)
Definition co_occurrence_matrix (vykony : list VykonRow) (i j : Z) : Z :=
  if i =? j then 0
  else sum_Z (map (fun d => vykony_pivot vykony d i * vykony_pivot vykony d j)
                (doklady vykony)).

(** A column of [co_occurrence_df], one cell per row label. *)
Definition co_occurrence_column (vykony : list VykonRow) (j : Z) : list Z :=
  map (fun i => co_occurrence_matrix vykony i j) (kody vykony).

Definition list_min (l : list Z) : Z :=
  match l with
  | [] => 0
  | x :: rest => fold_left Z.min rest x
  end.

Definition list_max (l : list Z) : Z :=
  match l with
  | [] => 0
  | x :: rest => fold_left Z.max rest x
  end.

(** [co_occurrence_df.min()] and [co_occurrence_df.max()]: pandas reduces a
    frame along the rows, which gives one minimum and one maximum per
    column. *)
Definition column_min (vykony : list VykonRow) (j : Z) : Z :=
  list_min (co_occurrence_column vykony j).

Definition column_max (vykony : list VykonRow) (j : Z) : Z :=
  list_max (co_occurrence_column vykony j).

(** A cell of [co_occurrence_df_normalized]: the subtraction and the division
    align the two series with the columns of the frame; a column whose
    maximum equals its minimum divides zero by zero, and [fillna(0)] turns the
    result into 0.  The quotient of the two integers is kept exact. *)
Definition normalized (vykony : list VykonRow) (i j : Z) : Q :=
  let lo := column_min vykony j in
  let hi := column_max vykony j in
  if hi - lo =? 0 then 0%Q
  else (inject_Z (co_occurrence_matrix vykony i j - lo) / inject_Z (hi - lo))%Q.

(** A frame with the label column ["kod"] that [reset_index] and [rename]
    add, and one column per code. *)
Record DataFrame := mkDataFrame {
  kod : list Z;
  columns : list Z;
  cell : Z → Z → Q
}.

Definition co_occurrence_df_normalized (vykony : list VykonRow) : DataFrame :=
  {| kod := kody vykony;
     columns := kody vykony;
     cell := normalized vykony |}.

(** [strength(a, b)] of the specification: the row of [a], the column of
    [b]. *)
Definition strength (df : DataFrame) (a b : Z) : Q := cell df a b.

(** ** The [add_co_occurrence] stage *)

(** The errors that abort a stage. *)
Inductive error :=
  | KeyError (key : string)
  | GraphRecursionError.

Inductive result (A : Type) :=
  | Ok (a : A)
  | Raise (e : error).
Arguments Ok {A} a.
Arguments Raise {A} e.

(** An exception leaves the stage at the call that raised it. *)
Global Instance result_bind : MBind result := λ A B f r,
  match r with
  | Ok a => f a
  | Raise e => Raise e
  end.

(** The parsed [page_content] of a retrieved document. *)
Record Doc := mkDoc {
  doc_code : Z
}.

(** [pd.DataFrame(docs)["code"].tolist()]: a frame built from an empty list
    has no column at all, and asking for ["code"] raises [KeyError]. *)
Definition docs_codes (docs : list Doc) : result (list Z) :=
  match docs with
  | [] => Raise (KeyError "code")
  | _ => Ok (map doc_code docs)
  end.

(** The trigger codes and the threshold written in the stage.  The cells are
    quotients of two counts; the comparison of such a quotient with the
    double 0.6 agrees with the comparison of the exact quotient with 6/10 as
    long as the counts stay below 2^51, far above any billing table. *)
Definition pivots : list Z := [42022; 9543].
Definition threshold : Q := 6 # 10.

(** [df.sort_values(by=code, ascending=False)] on pairs of a label and the
    value of the column. *)
Fixpoint insert_desc (x : Z * Q) (l : list (Z * Q)) : list (Z * Q) :=
  match l with
  | [] => [x]
  | y :: rest =>
      if Qle_bool (snd y) (snd x) then x :: y :: rest
      else y :: insert_desc x rest
  end.

Definition sort_values_desc (l : list (Z * Q)) : list (Z * Q) :=
  fold_right insert_desc [] l.

(** The message of the [KeyError] that a selection by a list of labels
    raises for the labels that are no columns of the frame:
    [f"{not_found} not in index"], the missing labels printed as a list. *)
Definition not_in_index (code : Z) : string :=
  String.append "[" (String.append (pretty code) "] not in index").

(** The body of the loop over the retrieved codes: select the columns
    ["kod"] and [code] (a [KeyError] with the message [not_in_index code]
    when the frame has no column [code]), keep the rows of the trigger
    codes, then those at or above the threshold, sort them and return their
    labels. *)
Definition codes_for (df : DataFrame) (code : Z) : result (list Z) :=
  if bool_decide (code ∈ columns df) then
    let rows := map (fun k => (k, cell df k code)) (kod df) in
    let rows := List.filter (fun r => bool_decide (fst r ∈ pivots)) rows in
    let rows := List.filter (fun r => Qle_bool threshold (snd r)) rows in
    let rows := sort_values_desc rows in
    Ok (map fst rows)
  else Raise (KeyError (not_in_index code)).

(** The loop that fills [to_add_codes]. *)
Fixpoint extend_to_add (df : DataFrame) (codes : list Z) (to_add_codes : list Z)
  : result (list Z) :=
  match codes with
  | [] => Ok to_add_codes
  | code :: rest =>
      found ← codes_for df code;
      extend_to_add df rest
        (if (0 <? length found)%nat then to_add_codes ++ found
         else to_add_codes)
  end.

Definition to_add_codes (df : DataFrame) (docs : list Doc) : result (list Z) :=
  codes ← docs_codes docs;
  extend_to_add df codes [].

(** The loop over [set(to_add_codes)]: the order in which a set hands out its
    elements is the set's own. *)
Definition append_found (find_vykon_by_code : Z → option Vykon)
    (new_vykony : list Vykon) (to_add : list Z) : list Vykon :=
  fold_left
    (fun new_vykony code =>
       match find_vykon_by_code code with
       | Some found_vykon => new_vykony ++ [found_vykon]
       | None => new_vykony
       end)
    (elements (list_to_set to_add : gset Z)) new_vykony.

(** [add_co_occurrence], given the documents [docs] that the vector store
    returns for the report. *)
Definition add_co_occurrence (df : DataFrame)
    (find_vykon_by_code : Z → option Vykon) (docs : list Doc)
    (state : AgentState) : result AgentState :=
  to_add ← to_add_codes df docs;
  Ok (set_diagnosis state
        (append_found find_vykon_by_code (get_vykony state) to_add)).

(** ** The graph: nodes and the chain of edges *)

(** What lies outside the module: the three generative services, the helpers
    of [agent.utils], the vector store and the billing table read from
    disk.  Each is a function that answers: a call that raises (a service
    that is unreachable, an answer that fails its schema, a file that is
    missing) aborts the run in the stage that makes it, and such runs are not
    modelled.  What is proved of [nodes] and of [graph] is therefore about
    the runs in which every service answers. *)
Record Services := mkServices {
  diagnosis_service : string → list MKN10Code;
  abbrev_service : string → string;
  candidates : MKN10Code → list Vykon;
  selection_service : Schema → list MKN10Code → string → option (list Vykon);
  validation_service :
    list MKN10Code → list Vykon → string → list Vykon → list VykonAction.t;
  vector_store : string → list Doc;
  catalog : Z → option Vykon;
  vykony_csv : list VykonRow
}.

(** [preprocess] returns [{"preprocess_diagnosis": result.model_dump()}]. *)
Definition preprocess (env : Services) (state : AgentState) : AgentState :=
  {| report := report state;
     preprocess_diagnosis := Some (diagnosis_service env (report state));
     diagnosis := diagnosis state;
     validity := validity state |}.

(** [abbrev] returns [{"report": result.text()}]. *)
Definition abbrev (env : Services) (state : AgentState) : AgentState :=
  {| report := abbrev_service env (report state);
     preprocess_diagnosis := preprocess_diagnosis state;
     diagnosis := diagnosis state;
     validity := validity state |}.

(** The calls of [workflow.add_node], each stage with its services. *)
Definition nodes (env : Services)
  : list (string * (AgentState → result AgentState)) :=
  [ ("preprocess", fun state => Ok (preprocess env state));
    ("abbrev", fun state => Ok (abbrev env state));
    ("model",
     fun state =>
       Ok (model (candidates env) (selection_service env) state));
    ("add_co_occurrence",
     fun state =>
       add_co_occurrence (co_occurrence_df_normalized (vykony_csv env))
         (catalog env) (vector_store env (report state)) state);
    ("validate",
     fun state =>
       Ok (validate
             (validation_service env (get_codes state)
                (suggested_vykony (candidates env) state)
                (report state) (get_vykony state))
             state));
    ("clear", fun state => Ok (clear (catalog env) state)) ].

Definition edge_chain : list string :=
  [ "__start__"; "preprocess"; "model"; "validate"; "clear";
    "add_co_occurrence" ].

(** [for i in range(len(edge_chain) - 1):
       workflow.add_edge(edge_chain[i], edge_chain[i + 1])] *)
Fixpoint add_edges (chain : list string) : list (string * string) :=
  match chain with
  | a :: (b :: _) as rest => (a, b) :: add_edges rest
  | _ => []
  end.

Definition edges : list (string * string) := add_edges edge_chain.

Fixpoint assoc {V : Type} (key : string) (l : list (string * V)) : option V :=
  match l with
  | [] => None
  | (k, v) :: rest => if String.eqb k key then Some v else assoc key rest
  end.

(** The compiled graph runs the node that the edge out of the current one
    names, until a node has no edge out; a run that outlasts the recursion
    limit raises [GraphRecursionError]. *)
Fixpoint run_from (env : Services) (steps : nat) (current : string)
    (state : AgentState) : result AgentState :=
  match steps with
  | O => Raise GraphRecursionError
  | S steps' =>
      match assoc current edges with
      | None => Ok state
      | Some next =>
          match assoc next (nodes env) with
          | None => Raise (KeyError next)
          | Some stage =>
              state' ← stage state;
              run_from env steps' next state'
          end
      end
  end.

Definition recursion_limit : nat := 25.

Definition graph (env : Services) (state : AgentState) : result AgentState :=
  run_from env recursion_limit "__start__" state.

(** The stages that precede the last one, composed in the order of the
    chain. *)
Definition before_augmentation (env : Services) (state : AgentState)
  : AgentState :=
  let s1 := preprocess env state in
  let s2 := model (candidates env) (selection_service env) s1 in
  let s3 :=
    validate
      (validation_service env (get_codes s2)
         (suggested_vykony (candidates env) s2) (report s2) (get_vykony s2))
      s2 in
  clear (catalog env) s3.

(** ** Concrete data for the examples *)

Definition vykon_9543 : Vykon :=
  {| code := 9543; name := "Consultation"; description := None;
     explanation := None |}.

Definition vykon_42022 : Vykon :=
  {| code := 42022; name := "Oncology check-up";
     description := Some "Targeted examination by an oncologist";
     explanation := None |}.

Definition vykon_100 : Vykon :=
  {| code := 100; name := "Blood count"; description := None;
     explanation := None |}.

(** A record whose code is not in the catalogue. *)
Definition vykon_777 : Vykon :=
  {| code := 777; name := "Unknown"; description := None;
     explanation := Some "unknown" |}.

Definition sample_cis : list Vykon := [vykon_9543; vykon_42022; vykon_100].

(** Three selected records, the first and the last with the same code, and
    one record whose code the catalogue does not know. *)
Definition sample_selection : list Vykon :=
  [ with_explanation vykon_9543 (Some "first");
    with_explanation vykon_100 (Some "blood");
    vykon_777;
    with_explanation vykon_9543 (Some "second") ].

Definition sample_verdicts : list VykonAction.t :=
  [ VykonAction.mk 9543 "supported by text" keep;
    VykonAction.mk 100 "not performed" remove ].

(** Documents billed together: code 1 once with code 2 and twice with
    code 3. *)
Definition sample_counts : list VykonRow :=
  [ mkVykonRow 1 1; mkVykonRow 1 2;
    mkVykonRow 2 1; mkVykonRow 2 3;
    mkVykonRow 3 1; mkVykonRow 3 3 ].

(** The scenario of the specification: code 100 is billed in four documents
    with code 5, in three of them also with the trigger code 42022, so that
    the strength of 42022 against 100 is 3/4. *)
Definition scenario_075 : list VykonRow :=
  [ mkVykonRow 1 100; mkVykonRow 1 5; mkVykonRow 1 42022;
    mkVykonRow 2 100; mkVykonRow 2 5; mkVykonRow 2 42022;
    mkVykonRow 3 100; mkVykonRow 3 5; mkVykonRow 3 42022;
    mkVykonRow 4 100; mkVykonRow 4 5 ].

(** The same with two documents out of five, a strength of 2/5. *)
Definition scenario_04 : list VykonRow :=
  [ mkVykonRow 1 100; mkVykonRow 1 5; mkVykonRow 1 42022;
    mkVykonRow 2 100; mkVykonRow 2 5; mkVykonRow 2 42022;
    mkVykonRow 3 100; mkVykonRow 3 5;
    mkVykonRow 4 100; mkVykonRow 4 5;
    mkVykonRow 5 100; mkVykonRow 5 5 ].

Definition empty_state (text : string) : AgentState :=
  {| report := text; preprocess_diagnosis := None; diagnosis := None;
     validity := None |}.

Definition state_with (vykony : list Vykon) : AgentState :=
  {| report := "report"; preprocess_diagnosis := Some [];
     diagnosis := Some vykony; validity := None |}.

(** A run of the first scenario of the specification, with a vector store
    that retrieves a document of code 100 and a billing table in which 100
    is always billed with 9543. *)
Definition sample_services : Services :=
  {| diagnosis_service := fun _ => [mkMKN10Code "E11" "Diabetes"];
     abbrev_service := fun text => text;
     candidates := fun _ => [vykon_9543];
     selection_service := fun _ _ _ => Some [vykon_9543];
     validation_service :=
       fun _ _ _ _ => [VykonAction.mk 9543 "supported by text" keep];
     vector_store := fun _ => [mkDoc 100];
     catalog := find_in_catalog sample_cis;
     vykony_csv := [mkVykonRow 1 100; mkVykonRow 1 9543] |}.

(** A diagnosis without candidates, and a selection service that answers
    with a code when the schema it is given offers no option at all. *)
Definition services_without_candidates : Services :=
  {| diagnosis_service := fun _ => [mkMKN10Code "Z00" "General examination"];
     abbrev_service := fun text => text;
     candidates := fun _ => [];
     selection_service :=
       fun schema _ _ =>
         match any_of schema with
         | [] => Some [vykon_9543]
         | _ => None
         end;
     validation_service := fun _ _ _ _ => [];
     vector_store := fun _ => [mkDoc 100];
     catalog := find_in_catalog sample_cis;
     vykony_csv := [mkVykonRow 1 100; mkVykonRow 1 9543] |}.

(** The state in which that run ends. *)
Definition sample_final : AgentState :=
  {| report := "r";
     preprocess_diagnosis := Some [mkMKN10Code "E11" "Diabetes"];
     diagnosis :=
       Some [ with_explanation vykon_9543 (Some "supported by text");
              vykon_9543 ];
     validity := Some [VykonAction.mk 9543 "supported by text" keep] |}.

(** ** Further definitions *)

(** A billing record as the JSON object a service returns for it: the keys
    [code] and [name], and [description] with its string or [null]. *)
Definition vykon_json (v : Vykon) : json :=
  JObj [ ("code", JInt (code v));
         ("name", JStr (name v));
         ("description",
          match description v with
          | Some d => JStr d
          | None => JNull
          end) ].

(** The definition that [add_code] builds for a candidate. *)
Definition code_schema_of (v : Vykon) : CodeSchema :=
  snd (add_code (code v) (name v) (description v)).

(** ** [Configuration] *)

(** The four prompt templates of [Configuration]. *)
Record Configuration := mkConfiguration {
  system_prompt : string;
  preprocess_prompt : string;
  validate_prompt : string;
  validate_human_prompt : string
}.

(** Python's truth value of a JSON value: [None], zero, the empty string,
    the empty list and the empty dictionary are false. *)
Definition json_truthy (value : json) : bool :=
  match value with
  | JNull => false
  | JInt z => negb (z =? 0)
  | JStr s => negb (String.eqb s "")
  | JList items => match items with [] => false | _ => true end
  | JObj fields => match fields with [] => false | _ => true end
  end.

(** One [str] field of the model: the default when the key is missing, the
    string when the key holds one, and a validation error otherwise. *)
Definition prompt_field (key default : string) (fields : list (string * json))
  : option string :=
  match field key fields with
  | None => Some default
  | Some (JStr s) => Some s
  | Some _ => None
  end.

(** [cls.model_validate(configurable)], with [None] for a
    [ValidationError]; [defaults] holds the four default prompts, and keys
    that are not fields of the model are ignored. *)
Definition model_validate (defaults : Configuration) (configurable : json)
  : option Configuration :=
  match configurable with
  | JObj fields =>
      s ← prompt_field "system_prompt" (system_prompt defaults) fields;
      p ← prompt_field "preprocess_prompt" (preprocess_prompt defaults) fields;
      v ← prompt_field "validate_prompt" (validate_prompt defaults) fields;
      h ← prompt_field "validate_human_prompt"
            (validate_human_prompt defaults) fields;
      Some {| system_prompt := s; preprocess_prompt := p;
              validate_prompt := v; validate_human_prompt := h |}
  | _ => None
  end.

(** [Configuration.from_runnable_config]:
    [configurable = (config.get("configurable") or {}) if config else {}]. *)
Definition from_runnable_config (defaults : Configuration)
    (config : option (list (string * json))) : option Configuration :=
  let configurable :=
    match config with
    | None | Some [] => JObj []
    | Some config =>
        match field "configurable" config with
        | Some value => if json_truthy value then value else JObj []
        | None => JObj []
        end
    end in
  model_validate defaults configurable.

(** * Properties *)

(** ** The [validate] stage *)

Lemma validate_loop_from verdicts vykony acc :
  fold_left
    (fun new_vykony vykon =>
       match next_verdict verdicts (code vykon) with
       | None => new_vykony ++ [with_explanation vykon None]
       | Some validity =>
           if is_remove (VykonAction.action validity) then new_vykony
           else new_vykony ++
                  [with_explanation vykon
                     (Some (VykonAction.explanation validity))]
       end)
    vykony acc
  = acc ++ omap (verdict_on verdicts) vykony.
Proof.
  revert acc. induction vykony as [|vykon rest IH]; intros acc; simpl.
  - by rewrite app_nil_r.
  - rewrite IH. unfold verdict_on.
    destruct (next_verdict verdicts (code vykon)) as [validity|]; simpl.
    + destruct (is_remove (VykonAction.action validity)); simpl; [done|].
      by rewrite <- app_assoc.
    + by rewrite <- app_assoc.
Qed.

Lemma validate_new_vykony_omap verdicts vykony :
  validate_new_vykony verdicts vykony = omap (verdict_on verdicts) vykony.
Proof. unfold validate_new_vykony. by rewrite validate_loop_from. Qed.

Lemma next_verdict_Some verdicts c v :
  next_verdict verdicts c = Some v → v ∈ verdicts ∧ VykonAction.code v = c.
Proof.
  unfold next_verdict. intros H. apply find_some in H as [Hin Heq].
  split; [by apply list_elem_of_In | lia].
Qed.

Lemma next_verdict_None verdicts c :
  next_verdict verdicts c = None →
  ∀ v, v ∈ verdicts → VykonAction.code v ≠ c.
Proof.
  unfold next_verdict. intros H v Hin Heq.
  apply list_elem_of_In in Hin.
  pose proof (find_none _ _ H v Hin) as Hf. simpl in Hf. lia.
Qed.

Lemma validate_new_vykony_elem verdicts vykony r :
  r ∈ validate_new_vykony verdicts vykony ↔
  ∃ v, v ∈ vykony ∧ verdict_on verdicts v = Some r.
Proof. rewrite validate_new_vykony_omap. apply list_elem_of_omap. Qed.

(** A record that the loop keeps has the code, the name and the description
    of the record it was made from, and the explanation of the first verdict
    for that code, which is not a [remove]. *)
Lemma verdict_on_Some verdicts w r :
  verdict_on verdicts w = Some r →
  code r = code w ∧ name r = name w ∧ description r = description w ∧
  explanation r
  = VykonAction.explanation <$> next_verdict verdicts (code w) ∧
  ∀ v, next_verdict verdicts (code w) = Some v → VykonAction.action v = keep.
Proof.
  unfold verdict_on. destruct (next_verdict verdicts (code w)) as [v|].
  - destruct (VykonAction.action v) eqn:Ha; [|done].
    intros [= <-]. repeat split; try done. by intros v' [= <-].
  - intros [= <-]. repeat split; done.
Qed.

(** C6.  Fail-open keep: a record of the input list whose code no verdict
    matches stays in the reconciled list with its code, name and description
    and with no explanation; a record whose matching verdict says [keep]
    stays with the explanation of that verdict; a record is absent from the
    result only when the matching verdict, a member of the verdict list with
    the record's code, says [remove], and then no record of that code is
    left. *)
Theorem validate_fail_open (verdicts : list VykonAction.t)
    (vykony : list Vykon) (vykon : Vykon) (Hin : vykon ∈ vykony) :
  match next_verdict verdicts (code vykon) with
  | None =>
      (∀ v, v ∈ verdicts → VykonAction.code v ≠ code vykon) ∧
      (∃ r, r ∈ validate_new_vykony verdicts vykony ∧
            code r = code vykon ∧ name r = name vykon ∧
            description r = description vykon ∧ explanation r = None) ∧
      (∀ r, r ∈ validate_new_vykony verdicts vykony →
            code r = code vykon → explanation r = None)
  | Some validity =>
      validity ∈ verdicts ∧ VykonAction.code validity = code vykon ∧
      match VykonAction.action validity with
      | keep =>
          (∃ r, r ∈ validate_new_vykony verdicts vykony ∧
                code r = code vykon ∧ name r = name vykon ∧
                description r = description vykon ∧
                explanation r = Some (VykonAction.explanation validity)) ∧
          (∀ r, r ∈ validate_new_vykony verdicts vykony →
                code r = code vykon →
                explanation r = Some (VykonAction.explanation validity))
      | remove =>
          ∀ r, r ∈ validate_new_vykony verdicts vykony → code r ≠ code vykon
      end
  end.
Proof.
  destruct (next_verdict verdicts (code vykon)) as [validity|] eqn:Hv.
  - destruct (next_verdict_Some _ _ _ Hv) as [Hmem Hcode].
    split; [done|]. split; [done|].
    destruct (VykonAction.action validity) eqn:Ha.
    + split.
      * exists (with_explanation vykon
                  (Some (VykonAction.explanation validity))).
        split; [|done]. apply validate_new_vykony_elem. exists vykon.
        split; [done|]. unfold verdict_on. by rewrite Hv, Ha.
      * intros r Hr Hc. apply validate_new_vykony_elem in Hr as (w & _ & Hw).
        apply verdict_on_Some in Hw as (Hcw & _ & _ & He & _).
        rewrite He, <- Hcw, Hc, Hv. done.
    + intros r Hr Hc. apply validate_new_vykony_elem in Hr as (w & _ & Hw).
      apply verdict_on_Some in Hw as (Hcw & _ & _ & _ & Hkeep).
      rewrite <- Hcw, Hc in Hkeep. specialize (Hkeep _ Hv). congruence.
  - split; [by apply next_verdict_None|]. split.
    + exists (with_explanation vykon None). split; [|done].
      apply validate_new_vykony_elem. exists vykon. split; [done|].
      unfold verdict_on. by rewrite Hv.
    + intros r Hr Hc. apply validate_new_vykony_elem in Hr as (w & _ & Hw).
      apply verdict_on_Some in Hw as (Hcw & _ & _ & He & _).
      rewrite He, <- Hcw, Hc, Hv. done.
Qed.

Lemma validate_fail_open_witness :
  (∀ v, v ∈ sample_verdicts → VykonAction.code v ≠ 777) ∧
  (∃ r, r ∈ validate_new_vykony sample_verdicts sample_selection ∧
        code r = 777 ∧ name r = "Unknown" ∧
        description r = None ∧ explanation r = None) ∧
  (∀ r, r ∈ validate_new_vykony sample_verdicts sample_selection →
        code r = 777 → explanation r = None).
Proof.
  apply (validate_fail_open sample_verdicts sample_selection vykon_777).
  unfold sample_selection. repeat constructor.
Defined.

Lemma verdict_on_explains verdicts vykon out :
  verdict_on verdicts vykon = Some out → ∃ e, out = with_explanation vykon e.
Proof.
  unfold verdict_on. intros H.
  destruct (next_verdict verdicts (code vykon)) as [validity|].
  - destruct (is_remove (VykonAction.action validity)); [done|].
    injection H as <-. eauto.
  - injection H as <-. eauto.
Qed.

Lemma omap_verdicts_sublist verdicts vykony :
  ∃ kept,
    sublist kept vykony ∧
    Forall2 (fun out inp => ∃ e, out = with_explanation inp e)
      (omap (verdict_on verdicts) vykony) kept.
Proof.
  induction vykony as [|vykon rest (kept & Hsub & Hall)]; simpl.
  - exists []. split; constructor.
  - destruct (verdict_on verdicts vykon) as [out|] eqn:Hout.
    + exists (vykon :: kept). split; [by constructor|].
      constructor; [by eapply verdict_on_explains | done].
    + exists kept. split; [by constructor | done].
Qed.

(** C10.  The list that [validate] leaves in the state is the list it found
    there with some records taken out: the records it keeps stand in their
    former order and differ from the records of the input in the explanation
    only; nothing is added. *)
Theorem validate_keeps_a_subsequence (verdicts : list VykonAction.t)
    (state : AgentState) :
  ∃ kept : list Vykon,
    sublist kept (get_vykony state) ∧
    Forall2 (fun out inp => ∃ e, out = with_explanation inp e)
      (get_vykony (validate verdicts state)) kept.
Proof.
  unfold validate, get_vykony at 2. simpl.
  rewrite validate_new_vykony_omap. apply omap_verdicts_sublist.
Qed.

(** ** Insertion-ordered dictionaries *)

Lemma elem_of_map {A B : Type} (f : A → B) (l : list A) (y : B) :
  y ∈ map f l ↔ ∃ x, y = f x ∧ x ∈ l.
Proof.
  rewrite list_elem_of_In, in_map_iff. split.
  - intros (x & <- & Hx). exists x. by rewrite list_elem_of_In.
  - intros (x & -> & Hx). exists x. by rewrite <- list_elem_of_In.
Qed.

Lemma last_with_code_cons_ne c v l :
  code v ≠ c → last_with_code c (v :: l) = last_with_code c l.
Proof.
  intros Hne. simpl. destruct (last_with_code c l); [done|].
  destruct (Z.eqb_spec (code v) c); done.
Qed.

Lemma last_with_code_cons_eq v l :
  last_with_code (code v) (v :: l)
  = Some (default v (last_with_code (code v) l)).
Proof.
  simpl. destruct (last_with_code (code v) l); [done|].
  by rewrite Z.eqb_refl.
Qed.

Lemma last_with_code_Some c l r :
  last_with_code c l = Some r → code r = c ∧ r ∈ l.
Proof.
  induction l as [|v l IH]; simpl; [done|].
  destruct (last_with_code c l) as [w|].
  - intros [= <-]. destruct IH as [? ?]; [done|]. split; [done|].
    by apply list_elem_of_further.
  - destruct (Z.eqb_spec (code v) c); [|done].
    intros [= <-]. split; [done | apply list_elem_of_here].
Qed.

Lemma last_with_code_is_Some c l :
  c ∈ map code l → is_Some (last_with_code c l).
Proof.
  induction l as [|v l IH]; simpl.
  - intros H. by apply elem_of_nil in H.
  - intros H. apply elem_of_cons in H as [->|H].
    + destruct (last_with_code (code v) l); [eauto|].
      rewrite Z.eqb_refl. eauto.
    + destruct (IH H) as [w ->]. eauto.
Qed.

(** The record that [last_with_code] returns is followed by no record of the
    same code. *)
Lemma last_with_code_is_last c l r :
  last_with_code c l = Some r →
  ∃ before after, l = before ++ r :: after ∧ c ∉ map code after.
Proof.
  revert r. induction l as [|v l IH]; intros r; simpl; [done|].
  destruct (last_with_code c l) as [w|] eqn:Hl.
  - intros [= <-]. destruct (IH w eq_refl) as (before & after & -> & Hnot).
    by exists (v :: before), after.
  - destruct (Z.eqb_spec (code v) c); [|done].
    intros [= <-]. exists [], l. split; [done|].
    intros Hin. destruct (last_with_code_is_Some _ _ Hin) as [w Hw].
    congruence.
Qed.

Lemma first_occurrences_from_elem seen codes c :
  c ∈ first_occurrences_from seen codes → (c ∉ seen) ∧ c ∈ codes.
Proof.
  revert seen. induction codes as [|x rest IH]; intros seen; simpl.
  - intros H. by apply elem_of_nil in H.
  - case_bool_decide as Hx.
    + intros H. destruct (IH _ H) as [? ?]. split; [done|].
      by apply list_elem_of_further.
    + intros H. apply elem_of_cons in H as [->|H].
      * split; [done | apply list_elem_of_here].
      * destruct (IH _ H) as [Hn ?]. split.
        -- intros Hs. apply Hn. apply elem_of_app. by left.
        -- by apply list_elem_of_further.
Qed.

Lemma first_occurrences_from_complete seen codes c :
  c ∈ codes → c ∉ seen → c ∈ first_occurrences_from seen codes.
Proof.
  revert seen. induction codes as [|x rest IH]; intros seen Hc Hs; simpl.
  - by apply elem_of_nil in Hc.
  - case_bool_decide as Hx.
    + apply elem_of_cons in Hc as [->|Hc]; [done|]. by apply IH.
    + destruct (decide (c = x)) as [->|Hne]; [apply list_elem_of_here|].
      apply list_elem_of_further. apply elem_of_cons in Hc as [?|Hc]; [done|].
      apply IH; [done|]. intros H. apply elem_of_app in H as [?|H]; [done|].
      apply list_elem_of_singleton in H. done.
Qed.

Lemma first_occurrences_from_NoDup seen codes :
  NoDup (first_occurrences_from seen codes).
Proof.
  revert seen. induction codes as [|x rest IH]; intros seen; simpl.
  - constructor.
  - case_bool_decide as Hx; [apply IH|].
    constructor; [|apply IH].
    intros H. apply first_occurrences_from_elem in H as [Hn _].
    apply Hn. apply elem_of_app. right. apply list_elem_of_here.
Qed.

Lemma dict_set_fresh {V : Type} k (v : V) d :
  k ∉ map fst d → dict_set k v d = d ++ [(k, v)].
Proof.
  induction d as [|[k' v'] d IH]; simpl; [done|].
  intros Hn. destruct (Z.eqb_spec k' k) as [->|Hne].
  - exfalso. apply Hn. apply list_elem_of_here.
  - rewrite IH; [done|]. intros H. apply Hn. by apply list_elem_of_further.
Qed.

Lemma dict_set_keys_present {V : Type} k (v : V) d :
  k ∈ map fst d → map fst (dict_set k v d) = map fst d.
Proof.
  induction d as [|[k' v'] d IH]; simpl.
  - intros H. by apply elem_of_nil in H.
  - intros H. destruct (Z.eqb_spec k' k) as [->|Hne]; simpl; [done|].
    apply elem_of_cons in H as [?|H]; [congruence|]. by rewrite IH.
Qed.

Lemma settle_cons_ne v l item :
  fst item ≠ code v → settle (v :: l) item = settle l item.
Proof.
  intros Hne. unfold settle. rewrite last_with_code_cons_ne; [done|].
  congruence.
Qed.

Lemma map_settle_dict_set v l d :
  NoDup (map fst d) → code v ∈ map fst d →
  map (settle l) (dict_set (code v) v d) = map (settle (v :: l)) d.
Proof.
  induction d as [|[k x] d IH]; simpl.
  - intros _ H. by apply elem_of_nil in H.
  - intros Hnd Hin. apply NoDup_cons in Hnd as [Hk Hnd].
    destruct (Z.eqb_spec k (code v)) as [->|Hne]; simpl.
    + f_equal.
      * unfold settle. cbn [fst snd]. by rewrite last_with_code_cons_eq.
      * apply map_ext_in. intros item Hitem. symmetry.
        apply settle_cons_ne. intros Heq. apply Hk.
        apply elem_of_map. exists item. split; [done|].
        by apply list_elem_of_In.
    + f_equal.
      * symmetry. by apply settle_cons_ne.
      * apply elem_of_cons in Hin as [?|Hin]; [congruence|]. by apply IH.
Qed.

Lemma map_settle_other v l (d : list (Z * Vykon)) :
  code v ∉ map fst d → map (settle l) d = map (settle (v :: l)) d.
Proof.
  intros Hn. apply map_ext_in. intros item Hitem. symmetry.
  apply settle_cons_ne. intros Heq. apply Hn. rewrite <- Heq.
  apply elem_of_map. exists item. split; [done|]. by apply list_elem_of_In.
Qed.

Lemma omap_last_other v l (seen codes : list Z) :
  code v ∈ seen →
  omap (fun c => pair c <$> last_with_code c l)
    (first_occurrences_from seen codes)
  = omap (fun c => pair c <$> last_with_code c (v :: l))
      (first_occurrences_from seen codes).
Proof.
  intros Hv. apply list_omap_ext.
  apply Forall_Forall2_diag, Forall_forall. intros c Hc.
  apply first_occurrences_from_elem in Hc as [Hn _].
  rewrite last_with_code_cons_ne; [done|]. congruence.
Qed.

Lemma dict_set_NoDup {V : Type} k (v : V) d :
  NoDup (map fst d) → NoDup (map fst (dict_set k v d)).
Proof.
  intros Hnd. destruct (decide (k ∈ map fst d)) as [Hin|Hn].
  - by rewrite dict_set_keys_present.
  - rewrite dict_set_fresh, map_app; [|done]. simpl.
    apply NoDup_app. split; [done|]. split.
    + intros x Hx Hk. apply list_elem_of_singleton in Hk. congruence.
    + apply NoDup_singleton.
Qed.

(** The dictionary after a list of assignments: the items that were there,
    each with its last value, followed by the new codes in the order of
    their first assignment, each with its last value. *)
Lemma dict_fold_spec l : ∀ d,
  NoDup (map fst d) →
  fold_left (fun d v => dict_set (code v) v d) l d
  = map (settle l) d ++
    omap (fun c => pair c <$> last_with_code c l)
      (first_occurrences_from (map fst d) (map code l)).
Proof.
  induction l as [|v l IH]; intros d Hnd; simpl fold_left.
  - simpl. rewrite app_nil_r. rewrite <- (map_id d) at 1.
    apply map_ext. by intros [k x].
  - rewrite IH by (by apply dict_set_NoDup).
    simpl map. simpl first_occurrences_from.
    case_bool_decide as Hin.
    + rewrite dict_set_keys_present by done.
      rewrite map_settle_dict_set by done.
      f_equal. by apply omap_last_other.
    + rewrite dict_set_fresh by done. rewrite !map_app. simpl map.
      rewrite <- app_assoc. f_equal; [by apply map_settle_other|].
      cbn [omap list_omap]. rewrite last_with_code_cons_eq.
      cbn [fmap option_fmap option_map app]. f_equal.
      apply omap_last_other. apply elem_of_app. right.
      apply list_elem_of_here.
Qed.

Lemma map_snd_omap_pair {A : Type} (f : Z → option A) (l : list Z) :
  map snd (omap (fun c => pair c <$> f c) l) = omap f l.
Proof.
  induction l as [|c l IH]; [done|].
  cbn [omap list_omap]. destruct (f c); cbn [fmap option_fmap option_map];
    [cbn [map snd]; f_equal|]; exact IH.
Qed.

(** Assignments under keys that are new and distinct append in order. *)
Lemma dict_fold_distinct l : ∀ d,
  NoDup (map fst d ++ map code l) →
  fold_left (fun d v => dict_set (code v) v d) l d
  = d ++ map (fun v => (code v, v)) l.
Proof.
  induction l as [|v l IH]; intros d Hnd; simpl.
  - by rewrite app_nil_r.
  - simpl in Hnd. apply NoDup_app in Hnd as (Hd & Hdisj & Hl).
    apply NoDup_cons in Hl as [Hv Hl].
    assert (code v ∉ map fst d) as Hfresh.
    { intros H. apply (Hdisj _ H). apply list_elem_of_here. }
    rewrite dict_set_fresh by done. rewrite IH.
    + by rewrite <- app_assoc.
    + rewrite map_app. simpl. rewrite <- app_assoc. simpl.
      apply NoDup_app. split; [done|]. split.
      * intros x Hx Hx'. apply elem_of_cons in Hx' as [->|Hx']; [done|].
        apply (Hdisj _ Hx). by apply list_elem_of_further.
      * by apply NoDup_cons.
Qed.

(** ** The [clear] stage *)

Lemma resolved_vykony_elem find_vykon_by_code vykony r :
  r ∈ resolved_vykony find_vykon_by_code vykony ↔
  ∃ v valid, v ∈ vykony ∧ find_vykon_by_code (code v) = Some valid ∧
             r = with_explanation valid (explanation v).
Proof.
  unfold resolved_vykony. rewrite list_elem_of_omap. split.
  - intros ([v found] & Hin & Hr). simpl in Hr.
    apply elem_of_map in Hin as (v' & [= -> ->] & Hv').
    destruct (find_vykon_by_code (code v')) as [valid|] eqn:Hfind; [|done].
    injection Hr as <-. by exists v', valid.
  - intros (v & valid & Hv & Hfind & ->).
    exists (v, find_vykon_by_code (code v)). split.
    + apply elem_of_map. by exists v.
    + simpl. by rewrite Hfind.
Qed.

Lemma clear_vykony_spec find_vykon_by_code vykony :
  clear_vykony find_vykon_by_code vykony
  = omap (fun c => last_with_code c (resolved_vykony find_vykon_by_code vykony))
      (first_occurrences
         (map code (resolved_vykony find_vykon_by_code vykony))).
Proof.
  unfold clear_vykony, dict_by_code, dict_values.
  rewrite dict_fold_spec by constructor. simpl.
  apply map_snd_omap_pair.
Qed.

Lemma omap_last_with_code_codes l codes :
  (∀ c, c ∈ codes → c ∈ map code l) →
  map code (omap (fun c => last_with_code c l) codes) = codes.
Proof.
  induction codes as [|c codes IH]; intros Hall; [done|].
  cbn [omap list_omap].
  destruct (last_with_code_is_Some c l) as [r Hr].
  { apply Hall, list_elem_of_here. }
  rewrite Hr. cbn [map]. f_equal.
  - by apply last_with_code_Some in Hr as [? _].
  - apply IH. intros c' Hc'. by apply Hall, list_elem_of_further.
Qed.

Lemma clear_vykony_codes find_vykon_by_code vykony :
  map code (clear_vykony find_vykon_by_code vykony)
  = first_occurrences (map code (resolved_vykony find_vykon_by_code vykony)).
Proof.
  rewrite clear_vykony_spec. apply omap_last_with_code_codes.
  intros c Hc. by apply first_occurrences_from_elem in Hc as [_ ?].
Qed.

(** After [clear] no two records of the list have the same code. *)
Lemma clear_vykony_NoDup find_vykon_by_code vykony :
  NoDup (map code (clear_vykony find_vykon_by_code vykony)).
Proof. rewrite clear_vykony_codes. apply first_occurrences_from_NoDup. Qed.

Lemma clear_vykony_elem find_vykon_by_code vykony r :
  r ∈ clear_vykony find_vykon_by_code vykony →
  r ∈ resolved_vykony find_vykon_by_code vykony.
Proof.
  rewrite clear_vykony_spec, list_elem_of_omap. intros (c & _ & Hc).
  by apply last_with_code_Some in Hc as [_ ?].
Qed.

(** A record of the resolved list comes from one record of the input list,
    and what follows it comes from what follows that record. *)
Lemma resolved_vykony_split find_vykon_by_code (vykony : list Vykon) :
  ∀ before r after,
  resolved_vykony find_vykon_by_code vykony = before ++ r :: after →
  ∃ vykony_before v vykony_after valid,
    vykony = vykony_before ++ v :: vykony_after ∧
    find_vykon_by_code (code v) = Some valid ∧
    r = with_explanation valid (explanation v) ∧
    resolved_vykony find_vykon_by_code vykony_after = after.
Proof.
  induction vykony as [|w rest IH]; intros before r after Hsplit.
  - by destruct before.
  - unfold resolved_vykony in Hsplit, IH.
    cbn [map omap list_omap fst snd] in Hsplit.
    destruct (find_vykon_by_code (code w)) as [valid|] eqn:Hfind.
    + destruct before as [|b before].
      * cbn [app] in Hsplit. injection Hsplit as <- <-.
        by exists [], w, rest, valid.
      * cbn [app] in Hsplit. injection Hsplit as _ Hsplit.
        apply IH in Hsplit as (vb & v & va & valid' & -> & ? & ? & ?).
        by exists (w :: vb), v, va, valid'.
    + apply IH in Hsplit as (vb & v & va & valid' & -> & ? & ? & ?).
      by exists (w :: vb), v, va, valid'.
Qed.

(** C7, as stated, fails: of two records with the code 9543 the survivor
    stands where the first of them stood, before the record of code 100,
    while the place of the last occurrence is after it. *)
Lemma clear_keeps_the_first_position :
  clear_vykony (find_in_catalog sample_cis) sample_selection
  = [ with_explanation vykon_9543 (Some "second");
      with_explanation vykon_100 (Some "blood") ] ∧
  dedup_at_last_occurrence (find_in_catalog sample_cis) sample_selection
  = [ with_explanation vykon_100 (Some "blood");
      with_explanation vykon_9543 (Some "second") ] ∧
  clear_vykony (find_in_catalog sample_cis) sample_selection
  ≠ dedup_at_last_occurrence (find_in_catalog sample_cis) sample_selection.
Proof. split; [reflexivity|]. split; [reflexivity|]. discriminate. Qed.

(** C7, amended.  The identity dedup resolves the code of every record
    against the catalogue and silently discards the records whose code does
    not resolve; the surviving codes appear once each, in the order of their
    first occurrence, and the record kept for a code is the catalogue entry
    with the explanation of the last record that carried the code: it has
    the code, the name and the description of the catalogue entry of a
    record of the input, the explanation of that record, and no later record
    of the input resolves to an entry of the same code. *)
Theorem clear_first_position_last_record
    (find_vykon_by_code : Z → option Vykon) (vykony : list Vykon) :
  let resolved := resolved_vykony find_vykon_by_code vykony in
  (∀ r, r ∈ resolved ↔
        ∃ v valid, v ∈ vykony ∧ find_vykon_by_code (code v) = Some valid ∧
                   r = with_explanation valid (explanation v)) ∧
  map code (clear_vykony find_vykon_by_code vykony)
  = first_occurrences (map code resolved) ∧
  clear_vykony find_vykon_by_code vykony
  = omap (fun c => last_with_code c resolved)
      (first_occurrences (map code resolved)) ∧
  (∀ r, r ∈ clear_vykony find_vykon_by_code vykony →
        ∃ before after,
          resolved = before ++ r :: after ∧ code r ∉ map code after) ∧
  (∀ r, r ∈ clear_vykony find_vykon_by_code vykony →
        ∃ vykony_before v vykony_after valid,
          vykony = vykony_before ++ v :: vykony_after ∧
          find_vykon_by_code (code v) = Some valid ∧
          code r = code valid ∧ name r = name valid ∧
          description r = description valid ∧
          explanation r = explanation v ∧
          ∀ w valid', w ∈ vykony_after →
                      find_vykon_by_code (code w) = Some valid' →
                      code valid' ≠ code valid).
Proof.
  intros resolved.
  assert (∀ r, r ∈ clear_vykony find_vykon_by_code vykony →
               ∃ before after,
                 resolved = before ++ r :: after ∧ code r ∉ map code after)
    as Hlast.
  { intros r Hr. rewrite clear_vykony_spec in Hr.
    apply list_elem_of_omap in Hr as (c & _ & Hc).
    destruct (last_with_code_Some _ _ _ Hc) as [<- _].
    by apply last_with_code_is_last. }
  split; [apply resolved_vykony_elem|].
  split; [apply clear_vykony_codes|].
  split; [apply clear_vykony_spec|].
  split; [exact Hlast|].
  intros r Hr. destruct (Hlast r Hr) as (before & after & Hsplit & Hafter).
  apply resolved_vykony_split in Hsplit
    as (vb & v & va & valid & -> & Hfind & -> & <-).
  exists vb, v, va, valid. repeat split; try done.
  intros w valid' Hw Hfind' Hcode. apply Hafter.
  apply elem_of_map. exists (with_explanation valid' (explanation w)).
  split; [symmetry; exact Hcode|].
  apply resolved_vykony_elem. by exists w, valid'.
Qed.

Lemma find_in_catalog_code vykony_cis c valid :
  find_in_catalog vykony_cis c = Some valid → code valid = c.
Proof.
  unfold find_in_catalog. intros H. apply find_some in H as [_ H]. lia.
Qed.

Lemma dict_values_by_distinct_codes l :
  NoDup (map code l) → dict_values (dict_by_code l) = l.
Proof.
  intros Hnd. unfold dict_values, dict_by_code.
  rewrite dict_fold_distinct by done. simpl.
  rewrite map_map. simpl. apply map_id.
Qed.

Lemma resolved_vykony_cons find_vykon_by_code r rest :
  resolved_vykony find_vykon_by_code (r :: rest)
  = match find_vykon_by_code (code r) with
    | Some valid =>
        with_explanation valid (explanation r)
          :: resolved_vykony find_vykon_by_code rest
    | None => resolved_vykony find_vykon_by_code rest
    end.
Proof.
  unfold resolved_vykony. cbn [map omap list_omap fst snd].
  by destruct (find_vykon_by_code (code r)).
Qed.

Section CatalogLookup.

(** The catalogue lookup, of which the dedup needs one property: the entry
    returned for a code carries that code. *)
Variable find_vykon_by_code : Z → option Vykon.
Hypothesis find_vykon_by_code_code :
  ∀ c valid, find_vykon_by_code c = Some valid → code valid = c.

Lemma resolved_vykony_fixed vykony :
  (∀ r, r ∈ vykony → ∃ v valid,
          find_vykon_by_code (code v) = Some valid ∧
          r = with_explanation valid (explanation v)) →
  resolved_vykony find_vykon_by_code vykony = vykony.
Proof.
  induction vykony as [|r rest IH]; intros Hall; [done|].
  rewrite resolved_vykony_cons.
  destruct (Hall r) as (v & valid & Hfind & ->);
    [apply list_elem_of_here|].
  cbn [code with_explanation explanation].
  rewrite (find_vykon_by_code_code _ _ Hfind), Hfind.
  f_equal. apply IH. intros r Hr. by apply Hall, list_elem_of_further.
Qed.

Lemma clear_vykony_idempotent vykony :
  clear_vykony find_vykon_by_code (clear_vykony find_vykon_by_code vykony)
  = clear_vykony find_vykon_by_code vykony.
Proof.
  unfold clear_vykony at 1. rewrite resolved_vykony_fixed.
  - apply dict_values_by_distinct_codes, clear_vykony_NoDup.
  - intros r Hr. apply clear_vykony_elem, resolved_vykony_elem in Hr
      as (v & valid & _ & Hfind & ->).
    by exists v, valid.
Qed.

End CatalogLookup.

(** C8.  Dedup idempotence: for a catalogue lookup that answers a code with
    an entry of that code, running [clear] on the state that [clear] returned
    changes nothing. *)
Theorem clear_idempotent (find_vykon_by_code : Z → option Vykon)
    (find_vykon_by_code_code :
       ∀ c valid, find_vykon_by_code c = Some valid → code valid = c)
    (state : AgentState) :
  clear find_vykon_by_code (clear find_vykon_by_code state)
  = clear find_vykon_by_code state.
Proof.
  unfold clear, set_diagnosis, get_vykony. simpl.
  by rewrite clear_vykony_idempotent.
Qed.

Lemma clear_idempotent_witness :
  clear (find_in_catalog sample_cis)
    (clear (find_in_catalog sample_cis) (state_with sample_selection))
  = clear (find_in_catalog sample_cis) (state_with sample_selection).
Proof.
  apply (clear_idempotent (find_in_catalog sample_cis)
           (find_in_catalog_code sample_cis)).
Defined.

(** ** The [model] stage *)

(** Every definition of the schema was made by [add_code] for one of the
    candidates. *)
Lemma build_schema_definitions suggested : ∀ st key d,
  fst
    (fold_left
       (fun (st : gmap string CodeSchema * list string) item =>
          let entry := add_code (code item) (name item) (description item) in
          (<[fst entry := snd entry]> (fst st), snd st ++ [fst entry]))
       suggested st) !! key = Some d →
  fst st !! key = Some d ∨
  ∃ v, v ∈ suggested ∧
       d = snd (add_code (code v) (name v) (description v)).
Proof.
  induction suggested as [|item rest IH]; intros st key d; simpl; [by left|].
  intros H. apply IH in H as [H|(v & Hv & ->)].
  - simpl in H. apply lookup_insert_Some in H as [[_ <-]|[_ H]].
    + right. exists item. split; [apply list_elem_of_here | done].
    + by left.
  - right. exists v. split; [by apply list_elem_of_further | done].
Qed.

Lemma validates_code_schema_code c n descr item :
  validates_code_schema (snd (add_code c n descr)) item = true →
  item_code item = Some c.
Proof.
  destruct item as [| | | |fields]; simpl; try done.
  intros H. apply andb_prop in H as [Hreq Hprop].
  assert (is_Some (field "code" fields)) as [value Hvalue].
  { destruct (truthy descr); simpl in Hreq;
      apply andb_prop in Hreq as [Hreq _]; by apply bool_decide_eq_true in Hreq. }
  apply andb_prop in Hprop as [Hprop _]. simpl in Hprop.
  rewrite Hvalue in *.
  destruct value; simpl in Hprop; try done.
  apply Z.eqb_eq in Hprop. by subst.
Qed.

(** C9.  Schema containment: an object that validates against the ["anyOf"]
    of the schema built for a list of candidates carries the code of one of
    the candidates, so no code outside the candidates validates. *)
Theorem schema_containment (suggested : list Vykon) (item : json)
    (Hvalid : validates_any_of (build_schema suggested) item = true) :
  ∃ v, v ∈ suggested ∧ item_code item = Some (code v).
Proof.
  unfold validates_any_of in Hvalid.
  apply existsb_exists in Hvalid as (ref & _ & Href).
  destruct (definitions (build_schema suggested) !! ref) as [d|] eqn:Hd;
    [|done].
  unfold build_schema in Hd. simpl in Hd.
  apply build_schema_definitions in Hd as [Hd|(v & Hv & ->)].
  - simpl in Hd. by rewrite lookup_empty in Hd.
  - exists v. split; [done|]. by eapply validates_code_schema_code.
Qed.

Lemma schema_containment_witness :
  ∃ v, v ∈ [vykon_9543; vykon_42022] ∧
       item_code (JObj [("code", JInt 9543); ("name", JStr "Consultation")])
       = Some (code v).
Proof.
  apply (schema_containment [vykon_9543; vykon_42022]
           (JObj [("code", JInt 9543); ("name", JStr "Consultation")])).
  vm_compute. reflexivity.
Defined.

(** C4, as stated, fails: for a diagnosis without candidates the stage still
    calls the selection service, with a schema that offers no option, and
    the selection it leaves in the state is the answer of the service, here
    one record. *)
Lemma model_runs_without_candidates :
  suggested_vykony (candidates services_without_candidates)
    (preprocess services_without_candidates (empty_state "r")) = [] ∧
  get_vykony
    (model (candidates services_without_candidates)
       (selection_service services_without_candidates)
       (preprocess services_without_candidates (empty_state "r")))
  = [vykon_9543].
Proof. split; reflexivity. Qed.

(** C4, amended.  When there is no candidate the code-selection stage is not
    skipped: the schema has no definition and an empty ["anyOf"], so that no
    object and no array validates against it, the selection service is
    called with that schema, and its answer becomes the selection. *)
Theorem model_without_candidates
    (get_vykony_per_diagnosis : MKN10Code → list Vykon)
    (select_codes : Schema → list MKN10Code → string → option (list Vykon))
    (state : AgentState)
    (Hempty : suggested_vykony get_vykony_per_diagnosis state = []) :
  let schema := build_schema (suggested_vykony get_vykony_per_diagnosis state) in
  schema = {| definitions := ∅; any_of := []; min_items := 1 |} ∧
  (∀ item, validates_any_of schema item = false) ∧
  (∀ value, validates_vykony schema value = false) ∧
  diagnosis (model get_vykony_per_diagnosis select_codes state)
  = select_codes {| definitions := ∅; any_of := []; min_items := 1 |}
      (get_codes state) (report state).
Proof.
  unfold model. rewrite Hempty. simpl.
  split; [done|]. split; [done|]. split; [|done].
  intros [| | |items|]; try done.
  unfold validates_vykony. simpl. by destruct items.
Qed.

Lemma model_without_candidates_witness :
  let state := preprocess services_without_candidates (empty_state "r") in
  let schema :=
    build_schema
      (suggested_vykony (candidates services_without_candidates) state) in
  schema = {| definitions := ∅; any_of := []; min_items := 1 |} ∧
  (∀ item, validates_any_of schema item = false) ∧
  (∀ value, validates_vykony schema value = false) ∧
  diagnosis
    (model (candidates services_without_candidates)
       (selection_service services_without_candidates) state)
  = selection_service services_without_candidates
      {| definitions := ∅; any_of := []; min_items := 1 |}
      (get_codes state) (report state).
Proof.
  apply (model_without_candidates (candidates services_without_candidates)
           (selection_service services_without_candidates)
           (preprocess services_without_candidates (empty_state "r"))).
  reflexivity.
Defined.

(** ** The co-occurrence table *)

Lemma sum_Z_nonneg l : (∀ x, x ∈ l → 0 ≤ x) → 0 ≤ sum_Z l.
Proof.
  induction l as [|x l IH]; intros Hall; simpl; [done|].
  assert (0 ≤ x) by apply Hall, list_elem_of_here.
  assert (0 ≤ sum_Z l).
  { apply IH. intros y Hy. by apply Hall, list_elem_of_further. }
  lia.
Qed.

Lemma vykony_pivot_nonneg vykony d k : 0 ≤ vykony_pivot vykony d k.
Proof. unfold vykony_pivot. lia. Qed.

Lemma co_occurrence_matrix_nonneg vykony i j :
  0 ≤ co_occurrence_matrix vykony i j.
Proof.
  unfold co_occurrence_matrix. destruct (i =? j); [done|].
  apply sum_Z_nonneg. intros x Hx. apply elem_of_map in Hx as (d & -> & _).
  pose proof (vykony_pivot_nonneg vykony d i).
  pose proof (vykony_pivot_nonneg vykony d j). nia.
Qed.

Lemma co_occurrence_matrix_sym vykony i j :
  co_occurrence_matrix vykony i j = co_occurrence_matrix vykony j i.
Proof.
  unfold co_occurrence_matrix. rewrite (Z.eqb_sym j i).
  destruct (i =? j); [done|]. f_equal. apply map_ext. intros d. lia.
Qed.

Lemma co_occurrence_matrix_diag vykony i : co_occurrence_matrix vykony i i = 0.
Proof. unfold co_occurrence_matrix. by rewrite Z.eqb_refl. Qed.

Lemma fold_left_min_le l : ∀ x y,
  y ∈ x :: l → fold_left Z.min l x ≤ y.
Proof.
  induction l as [|z l IH]; intros x y Hy; simpl.
  - apply list_elem_of_singleton in Hy. lia.
  - apply elem_of_cons in Hy as [->|Hy].
    + pose proof (IH (Z.min x z) (Z.min x z) (list_elem_of_here _ _)). lia.
    + apply elem_of_cons in Hy as [->|Hy].
      * pose proof (IH (Z.min x z) (Z.min x z) (list_elem_of_here _ _)). lia.
      * apply IH. by apply list_elem_of_further.
Qed.

Lemma fold_left_min_ge l : ∀ x lo,
  (∀ y, y ∈ x :: l → lo ≤ y) → lo ≤ fold_left Z.min l x.
Proof.
  induction l as [|z l IH]; intros x lo Hall; simpl.
  - apply Hall, list_elem_of_here.
  - apply IH. intros y Hy. apply elem_of_cons in Hy as [->|Hy].
    + pose proof (Hall x (list_elem_of_here _ _)).
      pose proof (Hall z (list_elem_of_further _ _ _ (list_elem_of_here _ _))).
      lia.
    + by apply Hall, list_elem_of_further, list_elem_of_further.
Qed.

Lemma fold_left_max_ge l : ∀ x y,
  y ∈ x :: l → y ≤ fold_left Z.max l x.
Proof.
  induction l as [|z l IH]; intros x y Hy; simpl.
  - apply list_elem_of_singleton in Hy. lia.
  - apply elem_of_cons in Hy as [->|Hy].
    + pose proof (IH (Z.max x z) (Z.max x z) (list_elem_of_here _ _)). lia.
    + apply elem_of_cons in Hy as [->|Hy].
      * pose proof (IH (Z.max x z) (Z.max x z) (list_elem_of_here _ _)). lia.
      * apply IH. by apply list_elem_of_further.
Qed.

Lemma list_min_zero l :
  0 ∈ l → (∀ y, y ∈ l → 0 ≤ y) → list_min l = 0.
Proof.
  destruct l as [|x l]; [done|]. intros Hin Hall. unfold list_min.
  pose proof (fold_left_min_le l x 0 Hin).
  pose proof (fold_left_min_ge l x 0 Hall). lia.
Qed.

Lemma list_max_ge l y : y ∈ l → y ≤ list_max l.
Proof.
  destruct l as [|x l]; [intros H; by apply elem_of_nil in H|].
  apply fold_left_max_ge.
Qed.

Lemma column_min_zero vykony j :
  j ∈ kody vykony → column_min vykony j = 0.
Proof.
  intros Hj. unfold column_min, co_occurrence_column. apply list_min_zero.
  - apply elem_of_map. exists j. by rewrite co_occurrence_matrix_diag.
  - intros y Hy. apply elem_of_map in Hy as (i & -> & _).
    apply co_occurrence_matrix_nonneg.
Qed.

Lemma column_max_ge vykony i j :
  i ∈ kody vykony → co_occurrence_matrix vykony i j ≤ column_max vykony j.
Proof.
  intros Hi. unfold column_max, co_occurrence_column. apply list_max_ge.
  apply elem_of_map. by exists i.
Qed.

(** With the minimum of a column at 0, a cell is the count over the maximum
    of its column. *)
Lemma normalized_by_column_max vykony i j :
  j ∈ kody vykony →
  normalized vykony i j
  = if column_max vykony j =? 0 then 0%Q
    else (inject_Z (co_occurrence_matrix vykony i j)
          / inject_Z (column_max vykony j))%Q.
Proof.
  intros Hj. unfold normalized. rewrite column_min_zero by done.
  by rewrite !Z.sub_0_r.
Qed.

(** C2, as stated, fails: code 1 is billed once with code 2 and twice with
    code 3, so the column of code 2 has maximum 1 and the column of code 1 has
    maximum 2, and the same count of one document gives 1 one way and 1/2 the
    other way. *)
Lemma strength_is_not_symmetric :
  let df := co_occurrence_df_normalized sample_counts in
  (strength df 1 2 == 1)%Q ∧ (strength df 2 1 == 1 # 2)%Q ∧
  ¬ (strength df 1 2 == strength df 2 1)%Q.
Proof.
  simpl. split; [reflexivity|]. split; [reflexivity|].
  vm_compute. discriminate.
Qed.

(** C2, amended.  For the codes of the vocabulary the counts are symmetric
    and [strength(a, a)] is 0; a strength is the count divided by the largest
    count of the column of its second code, so that [strength(a, b)] equals
    [strength(b, a)] when the columns of [a] and [b] have the same maximum. *)
Theorem co_occurrence_symmetry_per_column (vykony : list VykonRow) (a b : Z)
    (Ha : a ∈ kody vykony) (Hb : b ∈ kody vykony) :
  let df := co_occurrence_df_normalized vykony in
  co_occurrence_matrix vykony a b = co_occurrence_matrix vykony b a ∧
  (strength df a a == 0)%Q ∧
  (strength df a b * inject_Z (column_max vykony b)
   == inject_Z (co_occurrence_matrix vykony a b))%Q ∧
  (column_max vykony a = column_max vykony b →
   (strength df a b == strength df b a)%Q).
Proof.
  simpl. unfold strength. simpl.
  split; [apply co_occurrence_matrix_sym|]. split; [|split].
  - rewrite normalized_by_column_max by done.
    rewrite co_occurrence_matrix_diag.
    destruct (column_max vykony a =? 0); [reflexivity|].
    unfold Qdiv. apply Qmult_0_l.
  - rewrite normalized_by_column_max by done.
    destruct (Z.eqb_spec (column_max vykony b) 0) as [Hmax|Hmax].
    + pose proof (column_max_ge vykony a b Ha).
      pose proof (co_occurrence_matrix_nonneg vykony a b).
      assert (co_occurrence_matrix vykony a b = 0) as -> by lia.
      rewrite Hmax. reflexivity.
    + rewrite Qmult_comm. apply Qmult_div_r.
      intros H. apply Hmax. by apply inject_Z_injective.
  - intros Hmax. rewrite !normalized_by_column_max by done.
    rewrite Hmax, (co_occurrence_matrix_sym vykony a b). reflexivity.
Qed.

Lemma co_occurrence_symmetry_per_column_witness :
  let df := co_occurrence_df_normalized sample_counts in
  co_occurrence_matrix sample_counts 1 3 = co_occurrence_matrix sample_counts 3 1 ∧
  (strength df 1 1 == 0)%Q ∧
  (strength df 1 3 * inject_Z (column_max sample_counts 3)
   == inject_Z (co_occurrence_matrix sample_counts 1 3))%Q ∧
  (column_max sample_counts 1 = column_max sample_counts 3 →
   (strength df 1 3 == strength df 3 1)%Q).
Proof.
  apply (co_occurrence_symmetry_per_column sample_counts 1 3).
  - apply (bool_decide_unpack _). vm_compute. exact I.
  - apply (bool_decide_unpack _). vm_compute. exact I.
Defined.

(** ** The [add_co_occurrence] stage *)

Lemma insert_desc_elem x l y : y ∈ insert_desc x l ↔ y = x ∨ y ∈ l.
Proof.
  induction l as [|z l IH]; simpl.
  - by rewrite list_elem_of_singleton, elem_of_nil; intuition.
  - destruct (Qle_bool (snd z) (snd x)).
    + by rewrite elem_of_cons.
    + rewrite !elem_of_cons, IH. intuition.
Qed.

Lemma sort_values_desc_elem l y : y ∈ sort_values_desc l ↔ y ∈ l.
Proof.
  induction l as [|x l IH]; simpl; [done|].
  by rewrite insert_desc_elem, elem_of_cons, IH.
Qed.

Lemma codes_for_Ok df a :
  a ∈ columns df →
  ∃ found,
    codes_for df a = Ok found ∧
    ∀ c, c ∈ found ↔
         c ∈ pivots ∧ c ∈ kod df ∧ (threshold <= strength df c a)%Q.
Proof.
  intros Ha. unfold codes_for. rewrite bool_decide_eq_true_2 by done.
  eexists. split; [reflexivity|]. intros c.
  rewrite elem_of_map. split.
  - intros ([k x] & -> & Hk). rewrite sort_values_desc_elem in Hk.
    rewrite list_elem_of_In, !filter_In, <- list_elem_of_In in Hk.
    destruct Hk as [[Hk Hpiv] Hthr].
    apply elem_of_map in Hk as (k' & [= -> ->] & Hk').
    simpl in *. split; [by apply bool_decide_eq_true in Hpiv|].
    split; [done|]. by apply Qle_bool_iff.
  - intros (Hpiv & Hk & Hthr). exists (c, cell df c a). split; [done|].
    rewrite sort_values_desc_elem.
    rewrite list_elem_of_In, !filter_In, <- list_elem_of_In.
    split; [split|].
    + apply elem_of_map. by exists c.
    + by apply bool_decide_eq_true.
    + by apply Qle_bool_iff.
Qed.

Lemma extend_to_add_Ok df codes : ∀ acc,
  Forall (fun a => a ∈ columns df) codes →
  ∃ out,
    extend_to_add df codes acc = Ok out ∧
    ∀ c, c ∈ out ↔
         c ∈ acc ∨
         ∃ a, a ∈ codes ∧ c ∈ pivots ∧ c ∈ kod df ∧
              (threshold <= strength df c a)%Q.
Proof.
  induction codes as [|a codes IH]; intros acc Hall; simpl.
  - exists acc. split; [done|]. intros c. split; [by left|].
    intros [?|(a & Ha & _)]; [done|]. by apply elem_of_nil in Ha.
  - apply Forall_cons in Hall as [Ha Hall].
    destruct (codes_for_Ok df a Ha) as (found & -> & Hfound). simpl.
    destruct (IH (if (0 <? length found)%nat then acc ++ found else acc) Hall)
      as (out & -> & Hout).
    exists out. split; [done|]. intros c. rewrite Hout.
    assert (c ∈ (if (0 <? length found)%nat then acc ++ found else acc)
            ↔ c ∈ acc ∨ c ∈ found) as ->.
    { destruct found as [|x found]; simpl.
      - rewrite elem_of_nil. intuition.
      - by rewrite elem_of_app. }
    rewrite Hfound. split.
    + intros [[?|?]|(a' & Ha' & ?)]; [by left| |].
      * right. exists a. split; [apply list_elem_of_here | done].
      * right. exists a'. split; [by apply list_elem_of_further | done].
    + intros [?|(a' & Ha' & ?)]; [by left; left|].
      apply elem_of_cons in Ha' as [->|Ha'].
      * by left; right.
      * right. by exists a'.
Qed.

Lemma to_add_codes_Ok df docs :
  docs ≠ [] →
  Forall (fun d => doc_code d ∈ columns df) docs →
  ∃ out,
    to_add_codes df docs = Ok out ∧
    ∀ c, c ∈ out ↔
         c ∈ pivots ∧ c ∈ kod df ∧
         ∃ d, d ∈ docs ∧ (threshold <= strength df c (doc_code d))%Q.
Proof.
  intros Hdocs Hall. unfold to_add_codes, docs_codes.
  destruct docs as [|d docs]; [done|]. simpl.
  destruct (extend_to_add_Ok df (map doc_code (d :: docs)) [])
    as (out & Hout & Hmem).
  { apply Forall_forall. intros a Ha.
    apply elem_of_map in Ha as (d' & -> & Hd').
    by eapply Forall_forall in Hall. }
  exists out. split; [exact Hout|]. intros c. rewrite Hmem. split.
  - intros [Hnil|(a & Ha & ? & ? & ?)]; [by apply elem_of_nil in Hnil|].
    apply elem_of_map in Ha as (d' & -> & Hd'). eauto.
  - intros (? & ? & d' & Hd' & ?). right. exists (doc_code d').
    split; [|done]. apply elem_of_map. by exists d'.
Qed.

Lemma append_found_from (find_vykon_by_code : Z → option Vykon)
    (codes : list Z) : ∀ new_vykony,
  fold_left
    (fun new_vykony code =>
       match find_vykon_by_code code with
       | Some found_vykon => new_vykony ++ [found_vykon]
       | None => new_vykony
       end)
    codes new_vykony
  = new_vykony ++ omap find_vykon_by_code codes.
Proof.
  induction codes as [|c codes IH]; intros new_vykony; simpl.
  - by rewrite app_nil_r.
  - rewrite IH. destruct (find_vykon_by_code c); simpl; [|done].
    by rewrite <- app_assoc.
Qed.

Lemma append_found_spec find_vykon_by_code new_vykony to_add :
  append_found find_vykon_by_code new_vykony to_add
  = new_vykony ++
    omap find_vykon_by_code (elements (list_to_set to_add : gset Z)).
Proof. apply append_found_from. Qed.

(** C5.  With no retrieved document the stage does not complete: selecting
    the column ["code"] of the empty frame raises [KeyError]. *)
Theorem add_co_occurrence_without_documents (df : DataFrame)
    (find_vykon_by_code : Z → option Vykon) (state : AgentState) :
  add_co_occurrence df find_vykon_by_code [] state = Raise (KeyError "code").
Proof. reflexivity. Qed.

(** C3, as stated, fails: with the trigger code 42022 at strength 3/4 against
    the retrieved code 100, the code that is appended is 42022 and not 100,
    though the catalogue knows 100; and 42022 is appended again when the
    selection already holds it. *)
Lemma augmentation_adds_the_trigger_code :
  let df := co_occurrence_df_normalized scenario_075 in
  (strength df 42022 100 == 3 # 4)%Q ∧
  find_in_catalog sample_cis 100 = Some vykon_100 ∧
  add_co_occurrence df (find_in_catalog sample_cis) [mkDoc 100] (state_with [])
  = Ok (state_with [vykon_42022]) ∧
  add_co_occurrence df (find_in_catalog sample_cis) [mkDoc 100]
    (state_with [vykon_42022])
  = Ok (state_with [vykon_42022; vykon_42022]).
Proof.
  simpl. split; [reflexivity|]. split; [reflexivity|].
  split; vm_compute; reflexivity.
Qed.

(** The second half of the scenario: at strength 2/5 nothing is appended. *)
Lemma augmentation_below_threshold :
  let df := co_occurrence_df_normalized scenario_04 in
  (strength df 42022 100 == 2 # 5)%Q ∧
  add_co_occurrence df (find_in_catalog sample_cis) [mkDoc 100] (state_with [])
  = Ok (state_with []).
Proof. simpl. split; [reflexivity|]. vm_compute. reflexivity. Qed.

(** C3, amended.  When documents were retrieved and their codes are columns
    of the table, the stage appends to the selection the catalogue entries of
    the trigger codes (42022, 9543) whose strength against some retrieved
    code is at or above 0.6, and nothing else: a trigger code below 0.6
    against every retrieved code is not appended, and a retrieved code is
    not appended for being retrieved. *)
Theorem add_co_occurrence_appends_trigger_codes (df : DataFrame)
    (find_vykon_by_code : Z → option Vykon) (docs : list Doc)
    (state : AgentState)
    (Hdocs : docs ≠ [])
    (Hcolumns : Forall (fun d => doc_code d ∈ columns df) docs) :
  ∃ added,
    add_co_occurrence df find_vykon_by_code docs state
    = Ok (set_diagnosis state (get_vykony state ++ added)) ∧
    ∀ r, r ∈ added ↔
         ∃ p, p ∈ pivots ∧ p ∈ kod df ∧
              (∃ d, d ∈ docs ∧ (threshold <= strength df p (doc_code d))%Q) ∧
              find_vykon_by_code p = Some r.
Proof.
  destruct (to_add_codes_Ok df docs Hdocs Hcolumns) as (to_add & Hto & Hmem).
  exists (omap find_vykon_by_code (elements (list_to_set to_add : gset Z))).
  split.
  - unfold add_co_occurrence. rewrite Hto. simpl.
    by rewrite append_found_spec.
  - intros r. rewrite list_elem_of_omap. split.
    + intros (p & Hp & Hfind). apply elem_of_elements in Hp.
      apply elem_of_list_to_set, Hmem in Hp as (? & ? & ?). by exists p.
    + intros (p & ? & ? & ? & Hfind). exists p. split; [|done].
      apply elem_of_elements, elem_of_list_to_set, Hmem. done.
Qed.

Lemma add_co_occurrence_appends_trigger_codes_witness :
  let df := co_occurrence_df_normalized scenario_075 in
  ∃ added,
    add_co_occurrence df (find_in_catalog sample_cis) [mkDoc 100]
      (state_with [])
    = Ok (set_diagnosis (state_with []) (get_vykony (state_with []) ++ added)) ∧
    ∀ r, r ∈ added ↔
         ∃ p, p ∈ pivots ∧ p ∈ kod df ∧
              (∃ d, d ∈ [mkDoc 100] ∧
                    (threshold <= strength df p (doc_code d))%Q) ∧
              find_in_catalog sample_cis p = Some r.
Proof.
  apply (add_co_occurrence_appends_trigger_codes
           (co_occurrence_df_normalized scenario_075)
           (find_in_catalog sample_cis) [mkDoc 100] (state_with [])).
  - discriminate.
  - apply (bool_decide_unpack _). vm_compute. exact I.
Defined.

(** ** The order of the stages *)

(** The edges send a run through [preprocess], [model], [validate], [clear]
    and [add_co_occurrence], in this order, and [add_co_occurrence] is the
    last stage. *)
Lemma graph_runs_the_chain env state :
  graph env state
  = add_co_occurrence (co_occurrence_df_normalized (vykony_csv env))
      (catalog env) (vector_store env (report state))
      (before_augmentation env state).
Proof.
  unfold graph, recursion_limit, before_augmentation.
  cbn [run_from assoc edges add_edges edge_chain nodes String.eqb Ascii.eqb
       Bool.eqb mbind result_bind].
  cbn [report preprocess model validate clear set_diagnosis].
  by destruct (add_co_occurrence _ _ _ _).
Qed.

(** C1, as stated, fails: in this run the dedup leaves one record of code
    9543, the augmentation that follows appends the catalogue entry of the
    trigger code 9543, and the final list holds the code twice. *)
Lemma augmentation_after_dedup_repeats_a_code :
  graph sample_services (empty_state "r") = Ok sample_final ∧
  map code (get_vykony sample_final) = [9543; 9543] ∧
  ¬ NoDup (map code (get_vykony sample_final)).
Proof.
  split; [vm_compute; reflexivity|]. split; [reflexivity|].
  intros H. apply NoDup_cons in H as [H _]. apply H, list_elem_of_here.
Qed.

(** C1, amended.  The identity dedup runs before the augmentation stage: the
    list that the dedup stage leaves has no two records with the same code,
    and when the augmentation completes, the final list is that list
    followed by the catalogue entries of the trigger codes that the
    augmentation appends. *)
Theorem dedup_precedes_augmentation (env : Services) (state : AgentState)
    (Hdocs : vector_store env (report state) ≠ [])
    (Hcolumns :
       Forall (fun d => doc_code d ∈ kody (vykony_csv env))
         (vector_store env (report state))) :
  let deduped := before_augmentation env state in
  NoDup (map code (get_vykony deduped)) ∧
  ∃ added,
    graph env state
    = Ok (set_diagnosis deduped (get_vykony deduped ++ added)) ∧
    ∀ r, r ∈ added → ∃ p, p ∈ pivots ∧ catalog env p = Some r.
Proof.
  intros deduped. split.
  - unfold deduped, before_augmentation, clear, get_vykony at 1. simpl.
    apply clear_vykony_NoDup.
  - rewrite graph_runs_the_chain.
    destruct (to_add_codes_Ok (co_occurrence_df_normalized (vykony_csv env))
                (vector_store env (report state)) Hdocs Hcolumns)
      as (to_add & Hto & Hmem).
    exists (omap (catalog env) (elements (list_to_set to_add : gset Z))).
    split.
    + unfold add_co_occurrence. rewrite Hto. simpl.
      by rewrite append_found_spec.
    + intros r Hr. apply list_elem_of_omap in Hr as (p & Hp & Hfind).
      apply elem_of_elements, elem_of_list_to_set, Hmem in Hp as (? & _).
      by exists p.
Qed.

Lemma dedup_precedes_augmentation_witness :
  let deduped := before_augmentation sample_services (empty_state "r") in
  NoDup (map code (get_vykony deduped)) ∧
  ∃ added,
    graph sample_services (empty_state "r")
    = Ok (set_diagnosis deduped (get_vykony deduped ++ added)) ∧
    ∀ r, r ∈ added → ∃ p, p ∈ pivots ∧ catalog sample_services p = Some r.
Proof.
  apply (dedup_precedes_augmentation sample_services (empty_state "r")).
  - discriminate.
  - apply (bool_decide_unpack _). vm_compute. exact I.
Defined.

(** * Further properties of the stages *)

(** ** [validate] *)

Lemma next_verdict_app_Some verdicts more c w :
  next_verdict verdicts c = Some w → next_verdict (verdicts ++ more) c = Some w.
Proof.
  unfold next_verdict. induction verdicts as [|x verdicts IH]; simpl; [done|].
  destruct (VykonAction.code x =? c); [done | apply IH].
Qed.

Lemma next_verdict_covered verdicts c :
  (∃ w, w ∈ verdicts ∧ VykonAction.code w = c) →
  is_Some (next_verdict verdicts c).
Proof.
  intros (w & Hw & Hc). destruct (next_verdict verdicts c) eqn:Hn; [eauto|].
  by destruct (next_verdict_None _ _ Hn w Hw).
Qed.

Lemma verdict_on_fixed verdicts vykon out :
  verdict_on verdicts vykon = Some out → verdict_on verdicts out = Some out.
Proof.
  unfold verdict_on. intros H.
  destruct (next_verdict verdicts (code vykon)) as [w|] eqn:Hn.
  - destruct (is_remove (VykonAction.action w)) eqn:Hr; [done|].
    injection H as <-. cbn [code with_explanation]. by rewrite Hn, Hr.
  - injection H as <-. cbn [code with_explanation]. by rewrite Hn.
Qed.

Lemma omap_verdict_on_twice verdicts (vykony : list Vykon) :
  omap (verdict_on verdicts) (omap (verdict_on verdicts) vykony)
  = omap (verdict_on verdicts) vykony.
Proof.
  induction vykony as [|vykon rest IH]; [done|].
  cbn [omap list_omap].
  destruct (verdict_on verdicts vykon) as [out|] eqn:Hout; [|done].
  cbn [omap list_omap]. rewrite (verdict_on_fixed _ _ _ Hout).
  f_equal. exact IH.
Qed.

(** X1.  When no verdict of the validation service carries the code of any
    selected record, [validate] drops nothing: the list keeps its records
    and their order, each with its code, name and description and with an
    explanation of [None]. *)
Theorem validate_without_matching_verdict (verdicts : list VykonAction.t)
    (state : AgentState)
    (Hnone : ∀ v w, v ∈ get_vykony state → w ∈ verdicts →
                    VykonAction.code w ≠ code v) :
  get_vykony (validate verdicts state)
  = map (fun v => with_explanation v None) (get_vykony state) ∧
  Forall2 (fun r v => code r = code v ∧ name r = name v ∧
                      description r = description v ∧ explanation r = None)
    (get_vykony (validate verdicts state)) (get_vykony state).
Proof.
  assert (get_vykony (validate verdicts state)
          = map (fun v => with_explanation v None) (get_vykony state))
    as Heq.
  { change (get_vykony (validate verdicts state))
      with (validate_new_vykony verdicts (get_vykony state)).
    rewrite validate_new_vykony_omap.
    induction (get_vykony state) as [|v rest IH]; [done|].
    cbn [omap list_omap map]. unfold verdict_on at 1.
    destruct (next_verdict verdicts (code v)) as [w|] eqn:Hn.
    - apply next_verdict_Some in Hn as [Hw Hc].
      destruct (Hnone v w (list_elem_of_here _ _) Hw Hc).
    - f_equal. apply IH. intros v' w' Hv'.
      by apply Hnone, list_elem_of_further. }
  split; [exact Heq|]. rewrite Heq. clear Heq Hnone.
  induction (get_vykony state) as [|v rest IH]; cbn [map]; constructor;
    done.
Qed.

Lemma validate_without_matching_verdict_witness :
  get_vykony
    (validate [VykonAction.mk 5 "other code" remove]
       (state_with sample_selection))
  = map (fun v => with_explanation v None)
      (get_vykony (state_with sample_selection)) ∧
  Forall2 (fun r v => code r = code v ∧ name r = name v ∧
                      description r = description v ∧ explanation r = None)
    (get_vykony
       (validate [VykonAction.mk 5 "other code" remove]
          (state_with sample_selection)))
    (get_vykony (state_with sample_selection)).
Proof.
  apply (validate_without_matching_verdict
           [VykonAction.mk 5 "other code" remove]
           (state_with sample_selection)).
  intros v w Hv Hw. apply list_elem_of_singleton in Hw. subst w.
  cbn [get_vykony state_with diagnosis default sample_selection] in Hv.
  repeat (apply elem_of_cons in Hv as [->|Hv]; [discriminate|]).
  by apply elem_of_nil in Hv.
Defined.

(** X2.  [validate] is idempotent for a fixed answer of the validation
    service: running it again with the same verdicts on the state it
    returned changes nothing. *)
Theorem validate_idempotent (verdicts : list VykonAction.t)
    (state : AgentState) :
  validate verdicts (validate verdicts state) = validate verdicts state.
Proof.
  unfold validate at 1 3.
  change (get_vykony (validate verdicts state))
    with (validate_new_vykony verdicts (get_vykony state)).
  cbn [report preprocess_diagnosis validate]. f_equal. f_equal.
  rewrite !validate_new_vykony_omap. apply omap_verdict_on_twice.
Qed.

(** X3.  Only the first verdict for a code counts: when every selected
    record has a verdict in the answer, verdicts appended after it, also
    contradicting ones, do not change the reconciled list. *)
Theorem validate_ignores_later_verdicts (verdicts more : list VykonAction.t)
    (state : AgentState)
    (Hcovered : ∀ v, v ∈ get_vykony state →
                     ∃ w, w ∈ verdicts ∧ VykonAction.code w = code v) :
  get_vykony (validate (verdicts ++ more) state)
  = get_vykony (validate verdicts state).
Proof.
  change (get_vykony (validate (verdicts ++ more) state))
    with (validate_new_vykony (verdicts ++ more) (get_vykony state)).
  change (get_vykony (validate verdicts state))
    with (validate_new_vykony verdicts (get_vykony state)).
  rewrite !validate_new_vykony_omap. apply list_omap_ext.
  apply Forall_Forall2_diag, Forall_forall. intros v Hv.
  unfold verdict_on.
  destruct (next_verdict_covered verdicts (code v) (Hcovered v Hv)) as [w Hw].
  by rewrite (next_verdict_app_Some _ more _ _ Hw), Hw.
Qed.

Lemma validate_ignores_later_verdicts_witness :
  get_vykony
    (validate
       ([VykonAction.mk 9543 "supported by text" keep]
        ++ [VykonAction.mk 9543 "changed my mind" remove])
       (state_with [vykon_9543]))
  = get_vykony
      (validate [VykonAction.mk 9543 "supported by text" keep]
         (state_with [vykon_9543])).
Proof.
  apply (validate_ignores_later_verdicts
           [VykonAction.mk 9543 "supported by text" keep]
           [VykonAction.mk 9543 "changed my mind" remove]
           (state_with [vykon_9543])).
  intros v Hv. exists (VykonAction.mk 9543 "supported by text" keep).
  split; [apply list_elem_of_here|].
  cbn [get_vykony state_with diagnosis default] in Hv.
  apply list_elem_of_singleton in Hv. by subst v.
Defined.

(** X4.  Without a [remove] among the verdicts the stage drops no record:
    the codes of the list after [validate] are the codes before it, in the
    same order. *)
Theorem validate_without_remove (verdicts : list VykonAction.t)
    (state : AgentState)
    (Hkeep : ∀ w, w ∈ verdicts → VykonAction.action w = keep) :
  map code (get_vykony (validate verdicts state))
  = map code (get_vykony state).
Proof.
  change (get_vykony (validate verdicts state))
    with (validate_new_vykony verdicts (get_vykony state)).
  rewrite validate_new_vykony_omap.
  induction (get_vykony state) as [|v rest IH]; [done|].
  cbn [omap list_omap]. unfold verdict_on at 1.
  destruct (next_verdict verdicts (code v)) as [w|] eqn:Hn.
  - apply next_verdict_Some in Hn as [Hw _]. rewrite (Hkeep w Hw).
    cbn [is_remove map code with_explanation]. by f_equal.
  - cbn [map code with_explanation]. by f_equal.
Qed.

Lemma validate_without_remove_witness :
  map code
    (get_vykony
       (validate [VykonAction.mk 9543 "supported by text" keep]
          (state_with sample_selection)))
  = map code (get_vykony (state_with sample_selection)).
Proof.
  apply (validate_without_remove
           [VykonAction.mk 9543 "supported by text" keep]
           (state_with sample_selection)).
  intros w Hw. apply list_elem_of_singleton in Hw. by subst w.
Defined.

(** ** [clear], and [validate] followed by [clear] *)

Lemma first_occurrences_elem codes c : c ∈ first_occurrences codes ↔ c ∈ codes.
Proof.
  split.
  - intros H. by apply first_occurrences_from_elem in H as [_ ?].
  - intros H. apply first_occurrences_from_complete; [done|].
    apply not_elem_of_nil.
Qed.

Lemma length_omap_le {A B : Type} (f : A → option B) (l : list A) :
  (length (omap f l) ≤ length l)%nat.
Proof.
  induction l as [|x l IH]; [done|]. cbn [omap list_omap].
  destruct (f x); simpl; lia.
Qed.

Lemma first_occurrences_from_length seen codes :
  (length (first_occurrences_from seen codes) ≤ length codes)%nat.
Proof.
  revert seen. induction codes as [|c codes IH]; intros seen; simpl; [done|].
  case_bool_decide; simpl.
  - pose proof (IH seen). lia.
  - pose proof (IH (seen ++ [c])). lia.
Qed.

Section DedupWithLookup.

Variable find_vykon_by_code : Z → option Vykon.
Hypothesis find_vykon_by_code_code :
  ∀ c valid, find_vykon_by_code c = Some valid → code valid = c.

(** A resolved record is a catalogue entry found under its own code, with
    the code and the explanation of a record of the input. *)
Lemma resolved_vykony_origin vykony r :
  r ∈ resolved_vykony find_vykon_by_code vykony →
  ∃ v valid,
    v ∈ vykony ∧ code r = code v ∧ explanation r = explanation v ∧
    find_vykon_by_code (code r) = Some valid ∧
    r = with_explanation valid (explanation r).
Proof.
  intros Hr. apply resolved_vykony_elem in Hr as (v & valid & Hv & Hfind & ->).
  exists v, valid. cbn [code explanation with_explanation].
  rewrite (find_vykon_by_code_code _ _ Hfind). done.
Qed.

Lemma resolved_vykony_codes vykony c :
  c ∈ map code (resolved_vykony find_vykon_by_code vykony) ↔
  c ∈ map code vykony ∧ is_Some (find_vykon_by_code c).
Proof.
  rewrite !elem_of_map. split.
  - intros (r & -> & Hr).
    apply resolved_vykony_origin in Hr as (v & valid & Hv & Hc & _ & Hf & _).
    split; [by exists v | eauto].
  - intros [(v & -> & Hv) [valid Hfind]].
    exists (with_explanation valid (explanation v)). split.
    + cbn [code with_explanation]. symmetry.
      by apply find_vykon_by_code_code.
    + apply resolved_vykony_elem. by exists v, valid.
Qed.

Lemma resolved_vykony_all_known vykony :
  (∀ v, v ∈ vykony → is_Some (find_vykon_by_code (code v))) →
  map code (resolved_vykony find_vykon_by_code vykony) = map code vykony ∧
  map explanation (resolved_vykony find_vykon_by_code vykony)
  = map explanation vykony.
Proof.
  induction vykony as [|v rest IH]; intros Hall; [done|].
  rewrite resolved_vykony_cons.
  destruct (Hall v (list_elem_of_here _ _)) as [valid Hfind]. rewrite Hfind.
  destruct IH as [IHc IHe].
  { intros v' Hv'. by apply Hall, list_elem_of_further. }
  cbn [map code explanation with_explanation].
  rewrite IHc, IHe, (find_vykon_by_code_code _ _ Hfind). done.
Qed.

End DedupWithLookup.

(** X5.  For a catalogue lookup that answers a code with an entry of that
    code, the codes that [clear] leaves in the selection are exactly the
    codes of the selection that the catalogue knows: no known code is lost
    and no code appears that was not selected. *)
Theorem clear_keeps_the_known_codes (find_vykon_by_code : Z → option Vykon)
    (find_vykon_by_code_code :
       ∀ c valid, find_vykon_by_code c = Some valid → code valid = c)
    (state : AgentState) (c : Z) :
  c ∈ map code (get_vykony (clear find_vykon_by_code state)) ↔
  c ∈ map code (get_vykony state) ∧ is_Some (find_vykon_by_code c).
Proof.
  change (get_vykony (clear find_vykon_by_code state))
    with (clear_vykony find_vykon_by_code (get_vykony state)).
  rewrite clear_vykony_codes, first_occurrences_elem.
  by apply resolved_vykony_codes.
Qed.

Lemma clear_keeps_the_known_codes_witness :
  9543 ∈ map code
           (get_vykony
              (clear (find_in_catalog sample_cis) (state_with sample_selection)))
  ↔ 9543 ∈ map code (get_vykony (state_with sample_selection)) ∧
    is_Some (find_in_catalog sample_cis 9543).
Proof.
  apply (clear_keeps_the_known_codes (find_in_catalog sample_cis)
           (find_in_catalog_code sample_cis)
           (state_with sample_selection) 9543).
Defined.

(** X6.  When the selected codes are distinct and all known to the
    catalogue, [clear] drops and moves nothing: the codes and the
    explanations of the list are what they were, in the same order. *)
Theorem clear_without_duplicates (find_vykon_by_code : Z → option Vykon)
    (find_vykon_by_code_code :
       ∀ c valid, find_vykon_by_code c = Some valid → code valid = c)
    (state : AgentState)
    (Hdistinct : NoDup (map code (get_vykony state)))
    (Hknown : ∀ v, v ∈ get_vykony state →
                   is_Some (find_vykon_by_code (code v))) :
  map code (get_vykony (clear find_vykon_by_code state))
  = map code (get_vykony state) ∧
  map explanation (get_vykony (clear find_vykon_by_code state))
  = map explanation (get_vykony state).
Proof.
  change (get_vykony (clear find_vykon_by_code state))
    with (clear_vykony find_vykon_by_code (get_vykony state)).
  destruct (resolved_vykony_all_known find_vykon_by_code
              find_vykon_by_code_code (get_vykony state) Hknown) as [Hc He].
  unfold clear_vykony. rewrite dict_values_by_distinct_codes; [done|].
  by rewrite Hc.
Qed.

Lemma clear_without_duplicates_witness :
  let state :=
    state_with [ with_explanation vykon_100 (Some "blood");
                 with_explanation vykon_9543 (Some "visit") ] in
  map code (get_vykony (clear (find_in_catalog sample_cis) state))
  = map code (get_vykony state) ∧
  map explanation (get_vykony (clear (find_in_catalog sample_cis) state))
  = map explanation (get_vykony state).
Proof.
  apply (clear_without_duplicates (find_in_catalog sample_cis)
           (find_in_catalog_code sample_cis)).
  - apply (bool_decide_unpack _). vm_compute. exact I.
  - intros v Hv. cbn [get_vykony state_with diagnosis default] in Hv.
    repeat (apply elem_of_cons in Hv as [->|Hv]; [vm_compute; eauto|]).
    by apply elem_of_nil in Hv.
Defined.

(** X7.  [clear] never lengthens the selection. *)
Theorem clear_never_adds (find_vykon_by_code : Z → option Vykon)
    (state : AgentState) :
  (length (get_vykony (clear find_vykon_by_code state))
   ≤ length (get_vykony state))%nat.
Proof.
  change (get_vykony (clear find_vykon_by_code state))
    with (clear_vykony find_vykon_by_code (get_vykony state)).
  rewrite clear_vykony_spec.
  etrans; [apply length_omap_le|].
  etrans; [apply first_occurrences_from_length|].
  rewrite length_map. unfold resolved_vykony.
  etrans; [apply length_omap_le|]. by rewrite length_map.
Qed.

(** X8.  After [clear] every record is the catalogue entry of its code:
    its name and its description are those of the catalogue, whatever the
    record said before. *)
Theorem clear_takes_the_catalogue_entry
    (find_vykon_by_code : Z → option Vykon)
    (find_vykon_by_code_code :
       ∀ c valid, find_vykon_by_code c = Some valid → code valid = c)
    (state : AgentState) (r : Vykon)
    (Hr : r ∈ get_vykony (clear find_vykon_by_code state)) :
  ∃ valid,
    find_vykon_by_code (code r) = Some valid ∧
    name r = name valid ∧ description r = description valid.
Proof.
  change (get_vykony (clear find_vykon_by_code state))
    with (clear_vykony find_vykon_by_code (get_vykony state)) in Hr.
  apply clear_vykony_elem in Hr.
  apply (resolved_vykony_origin _ find_vykon_by_code_code) in Hr
    as (v & valid & _ & _ & _ & Hfind & Heq).
  exists valid. split; [done|]. by rewrite Heq.
Qed.

Lemma clear_takes_the_catalogue_entry_witness :
  ∃ valid,
    find_in_catalog sample_cis
      (code (with_explanation vykon_9543 (Some "second"))) = Some valid ∧
    name (with_explanation vykon_9543 (Some "second")) = name valid ∧
    description (with_explanation vykon_9543 (Some "second"))
    = description valid.
Proof.
  apply (clear_takes_the_catalogue_entry (find_in_catalog sample_cis)
           (find_in_catalog_code sample_cis) (state_with sample_selection)).
  exact (list_elem_of_here _ _).
Defined.

(** X9.  A code that the validation service removed does not come back
    through the dedup: after [validate] and [clear] no record carries a code
    whose first verdict says [remove]. *)
Theorem removed_code_stays_removed (find_vykon_by_code : Z → option Vykon)
    (find_vykon_by_code_code :
       ∀ c valid, find_vykon_by_code c = Some valid → code valid = c)
    (verdicts : list VykonAction.t) (state : AgentState) (c : Z)
    (w : VykonAction.t)
    (Hverdict : next_verdict verdicts c = Some w)
    (Hremove : VykonAction.action w = remove) :
  c ∉ map code
        (get_vykony (clear find_vykon_by_code (validate verdicts state))).
Proof.
  change (get_vykony (clear find_vykon_by_code (validate verdicts state)))
    with (clear_vykony find_vykon_by_code
            (validate_new_vykony verdicts (get_vykony state))).
  rewrite clear_vykony_codes, first_occurrences_elem.
  rewrite (resolved_vykony_codes _ find_vykon_by_code_code).
  intros [Hc _]. apply elem_of_map in Hc as (r & -> & Hr).
  rewrite validate_new_vykony_omap in Hr.
  apply list_elem_of_omap in Hr as (u & _ & Hu).
  destruct (verdict_on_explains _ _ _ Hu) as [e ->].
  cbn [code with_explanation] in Hverdict.
  unfold verdict_on in Hu. rewrite Hverdict, Hremove in Hu. done.
Qed.

Lemma removed_code_stays_removed_witness :
  100 ∉ map code
          (get_vykony
             (clear (find_in_catalog sample_cis)
                (validate sample_verdicts (state_with sample_selection)))).
Proof.
  apply (removed_code_stays_removed (find_in_catalog sample_cis)
           (find_in_catalog_code sample_cis) sample_verdicts
           (state_with sample_selection) 100
           (VykonAction.mk 100 "not performed" remove)).
  - reflexivity.
  - reflexivity.
Defined.

(** X10.  After [validate] and [clear] every record carries the explanation
    of the first verdict for its code, and [None] when no verdict names the
    code. *)
Theorem explanation_after_validate_and_clear
    (find_vykon_by_code : Z → option Vykon)
    (find_vykon_by_code_code :
       ∀ c valid, find_vykon_by_code c = Some valid → code valid = c)
    (verdicts : list VykonAction.t) (state : AgentState) (r : Vykon)
    (Hr : r ∈ get_vykony
              (clear find_vykon_by_code (validate verdicts state))) :
  explanation r
  = VykonAction.explanation <$> next_verdict verdicts (code r).
Proof.
  change (get_vykony (clear find_vykon_by_code (validate verdicts state)))
    with (clear_vykony find_vykon_by_code
            (validate_new_vykony verdicts (get_vykony state))) in Hr.
  apply clear_vykony_elem in Hr.
  apply (resolved_vykony_origin _ find_vykon_by_code_code) in Hr
    as (v & valid & Hv & Hc & He & _ & _).
  rewrite He, Hc. rewrite validate_new_vykony_omap in Hv.
  apply list_elem_of_omap in Hv as (u & _ & Hu). unfold verdict_on in Hu.
  destruct (next_verdict verdicts (code u)) as [w|] eqn:Hn.
  - destruct (is_remove (VykonAction.action w)); [done|].
    injection Hu as <-. cbn [code explanation with_explanation].
    by rewrite Hn.
  - injection Hu as <-. cbn [code explanation with_explanation].
    by rewrite Hn.
Qed.

Lemma explanation_after_validate_and_clear_witness :
  explanation (with_explanation vykon_9543 (Some "supported by text"))
  = VykonAction.explanation
      <$> next_verdict sample_verdicts
            (code (with_explanation vykon_9543 (Some "supported by text"))).
Proof.
  apply (explanation_after_validate_and_clear (find_in_catalog sample_cis)
           (find_in_catalog_code sample_cis) sample_verdicts
           (state_with sample_selection)).
  exact (list_elem_of_here _ _).
Defined.

(** ** The schema of [model] *)

Lemma build_schema_refs l : ∀ st : gmap string CodeSchema * list string,
  snd
    (fold_left
       (fun (st : gmap string CodeSchema * list string) item =>
          let entry := add_code (code item) (name item) (description item) in
          (<[fst entry := snd entry]> (fst st), snd st ++ [fst entry]))
       l st)
  = snd st ++ map (fun v => pretty (code v)) l.
Proof.
  induction l as [|v l IH]; intros st; simpl.
  - by rewrite app_nil_r.
  - rewrite IH. simpl. by rewrite <- app_assoc.
Qed.

Lemma build_schema_lookup l : ∀ (st : gmap string CodeSchema * list string) c,
  fst
    (fold_left
       (fun (st : gmap string CodeSchema * list string) item =>
          let entry := add_code (code item) (name item) (description item) in
          (<[fst entry := snd entry]> (fst st), snd st ++ [fst entry]))
       l st) !! pretty c
  = match last_with_code c l with
    | Some v => Some (code_schema_of v)
    | None => fst st !! pretty c
    end.
Proof.
  induction l as [|v l IH]; intros st c; [done|].
  cbn [fold_left last_with_code]. rewrite IH.
  destruct (last_with_code c l); [done|]. cbn [fst snd add_code].
  destruct (Z.eqb_spec (code v) c) as [<-|Hne].
  - rewrite lookup_insert_eq. reflexivity.
  - rewrite lookup_insert_ne; [reflexivity|]. intros H.
    by apply (inj pretty) in H.
Qed.

Lemma definitions_lookup l c :
  definitions (build_schema l) !! pretty c
  = code_schema_of <$> last_with_code c l.
Proof.
  unfold build_schema. cbn [definitions]. rewrite build_schema_lookup.
  destruct (last_with_code c l); [done|]. cbn [fst]. apply lookup_empty.
Qed.

Lemma any_of_refs l :
  any_of (build_schema l) = map (fun v => pretty (code v)) l.
Proof. unfold build_schema. cbn [any_of]. by rewrite build_schema_refs. Qed.

Lemma last_with_code_decomposed before v after :
  code v ∉ map code after →
  last_with_code (code v) (before ++ v :: after) = Some v.
Proof.
  intros Hafter. induction before as [|u before IH].
  - cbn [app]. rewrite last_with_code_cons_eq.
    destruct (last_with_code (code v) after) as [w|] eqn:Hw; [|done].
    apply last_with_code_Some in Hw as [Hc Hin]. exfalso. apply Hafter.
    apply elem_of_map. by exists w.
  - cbn [app last_with_code]. by rewrite IH.
Qed.

Lemma validates_own_schema v :
  validates_code_schema (code_schema_of v) (vykon_json v) = true.
Proof.
  unfold code_schema_of, add_code, vykon_json. cbn [snd].
  destruct (description v) as [d|]; cbn [truthy].
  - destruct (String.eqb_spec d "") as [->|Hd]; cbn [negb].
    + cbn. by rewrite Z.eqb_refl, String.eqb_refl.
    + cbn. by rewrite Z.eqb_refl, !String.eqb_refl.
  - cbn. by rewrite Z.eqb_refl, String.eqb_refl.
Qed.

Lemma validates_code_schema_name v item :
  validates_code_schema (code_schema_of v) item = true →
  ∃ fields, item = JObj fields ∧ field "name" fields = Some (JStr (name v)).
Proof.
  unfold code_schema_of, add_code. cbn [snd].
  destruct item as [| | | |fields]; cbn [validates_code_schema]; try done.
  intros H. apply andb_prop in H as [Hreq Hprop]. exists fields.
  split; [done|].
  assert (is_Some (field "name" fields)) as [value Hvalue].
  { destruct (truthy (description v)); cbn [required forallb] in Hreq;
      apply andb_prop in Hreq as [_ Hreq];
      apply andb_prop in Hreq as [Hreq _];
      by apply bool_decide_eq_true in Hreq. }
  cbn [properties app forallb fst snd] in Hprop.
  apply andb_prop in Hprop as [_ Hprop].
  apply andb_prop in Hprop as [Hprop _].
  rewrite Hvalue in Hprop. rewrite Hvalue. f_equal.
  destruct value; cbn [matches_const] in Hprop; try done.
  apply String.eqb_eq in Hprop. by subst.
Qed.

(** X11.  The ["anyOf"] list holds one reference per candidate, in the order
    of the candidates and without collapsing candidates of the same code. *)
Theorem any_of_lists_every_candidate (suggested : list Vykon) :
  any_of (build_schema suggested)
  = map (fun v => pretty (code v)) suggested ∧
  length (any_of (build_schema suggested)) = length suggested.
Proof.
  rewrite any_of_refs. split; [done|]. apply length_map.
Qed.

(** X12.  The definitions are keyed by code: under the key of a code stands
    the definition built for the last candidate with that code, an earlier
    candidate of the same code is overwritten, and a code without candidate
    has no definition. *)
Theorem definition_of_the_last_candidate (suggested : list Vykon) (c : Z) :
  definitions (build_schema suggested) !! pretty c
  = code_schema_of <$> last_with_code c suggested.
Proof. apply definitions_lookup. Qed.

(** X13.  No reference of ["anyOf"] dangles: each of them names a definition
    of the schema. *)
Theorem any_of_references_resolve (suggested : list Vykon) (ref : string)
    (Href : ref ∈ any_of (build_schema suggested)) :
  is_Some (definitions (build_schema suggested) !! ref).
Proof.
  rewrite any_of_refs in Href. apply elem_of_map in Href as (v & -> & Hv).
  rewrite definitions_lookup.
  destruct (last_with_code_is_Some (code v) suggested) as [w ->]; [|by eexists].
  apply elem_of_map. by exists v.
Qed.

Lemma any_of_references_resolve_witness :
  is_Some (definitions (build_schema sample_cis) !! "42022").
Proof.
  apply (any_of_references_resolve sample_cis "42022").
  apply (bool_decide_unpack _). vm_compute. exact I.
Defined.

(** X14.  The schema accepts the candidates it was built from: the object of
    a candidate that no later candidate of the same code follows validates
    against ["anyOf"]. *)
Theorem schema_accepts_the_candidate (before after : list Vykon) (v : Vykon)
    (Hlast : code v ∉ map code after) :
  validates_any_of (build_schema (before ++ v :: after)) (vykon_json v) = true.
Proof.
  unfold validates_any_of. apply existsb_exists. exists (pretty (code v)).
  split.
  - apply list_elem_of_In. rewrite any_of_refs. apply elem_of_map.
    exists v. split; [done|]. apply elem_of_app. right.
    apply list_elem_of_here.
  - rewrite definitions_lookup, last_with_code_decomposed by done.
    apply validates_own_schema.
Qed.

Lemma schema_accepts_the_candidate_witness :
  validates_any_of (build_schema ([vykon_9543] ++ vykon_42022 :: [vykon_100]))
    (vykon_json vykon_42022) = true.
Proof.
  apply (schema_accepts_the_candidate [vykon_9543] [vykon_100] vykon_42022).
  apply (bool_decide_unpack _). vm_compute. exact I.
Defined.

(** X15.  An object that the schema accepts carries the code and the name of
    the last candidate with that code, so that of two candidates with one
    code and different names the earlier one is not accepted. *)
Theorem accepted_object_matches_the_last_candidate (suggested : list Vykon)
    (item : json)
    (Hvalid : validates_any_of (build_schema suggested) item = true) :
  ∃ v fields,
    last_with_code (code v) suggested = Some v ∧
    item = JObj fields ∧
    field "code" fields = Some (JInt (code v)) ∧
    field "name" fields = Some (JStr (name v)).
Proof.
  unfold validates_any_of in Hvalid.
  apply existsb_exists in Hvalid as (ref & Href & Hd).
  apply list_elem_of_In in Href. rewrite any_of_refs in Href.
  apply elem_of_map in Href as (u & -> & Hu).
  rewrite definitions_lookup in Hd.
  destruct (last_with_code (code u) suggested) as [v|] eqn:Hlast; [|done].
  cbn [fmap option_fmap option_map] in Hd.
  destruct (last_with_code_Some _ _ _ Hlast) as [Hc _].
  destruct (validates_code_schema_name _ _ Hd) as (fields & -> & Hname).
  rewrite <- Hc in Hlast.
  exists v, fields. split; [done|]. split; [done|].
  split; [|done].
  apply validates_code_schema_code in Hd. cbn [item_code] in Hd.
  destruct (field "code" fields) as [[| z | | |]|]; try done.
  by injection Hd as ->.
Qed.

Lemma accepted_object_matches_the_last_candidate_witness :
  ∃ v fields,
    last_with_code (code v) sample_cis = Some v ∧
    vykon_json vykon_100 = JObj fields ∧
    field "code" fields = Some (JInt (code v)) ∧
    field "name" fields = Some (JStr (name v)).
Proof.
  apply (accepted_object_matches_the_last_candidate sample_cis
           (vykon_json vykon_100)).
  vm_compute. reflexivity.
Defined.

Lemma suggested_vykony_from get_vykony_per_diagnosis codes : ∀ acc v,
  v ∈ fold_left
        (fun suggested (item : MKN10Code) =>
           suggested ++ get_vykony_per_diagnosis item)
        codes acc →
  v ∈ acc ∨
  ∃ item : MKN10Code, item ∈ codes ∧ v ∈ (get_vykony_per_diagnosis item : list Vykon).
Proof.
  induction codes as [|item codes IH]; intros acc v; simpl; [by left|].
  intros H. apply IH in H as [H|(item' & Hitem' & Hv)].
  - apply elem_of_app in H as [H|H]; [by left|].
    right. exists item. split; [apply list_elem_of_here | done].
  - right. exists item'. split; [by apply list_elem_of_further | done].
Qed.

(** X16.  The schema that [model] hands to the selection service accepts
    only codes that the candidate mapping gives for one of the diagnoses in
    the state. *)
Theorem model_schema_accepts_mapped_codes
    (get_vykony_per_diagnosis : MKN10Code → list Vykon) (state : AgentState)
    (item : json)
    (Hvalid :
       validates_any_of
         (build_schema (suggested_vykony get_vykony_per_diagnosis state))
         item = true) :
  ∃ diag v,
    diag ∈ get_codes state ∧ v ∈ get_vykony_per_diagnosis diag ∧
    item_code item = Some (code v).
Proof.
  unfold validates_any_of in Hvalid.
  apply existsb_exists in Hvalid as (ref & _ & Href).
  destruct (definitions _ !! ref) as [d|] eqn:Hd; [|done].
  unfold build_schema in Hd. cbn [definitions] in Hd.
  apply build_schema_definitions in Hd as [Hd|(v & Hv & ->)].
  - cbn [fst] in Hd. by rewrite lookup_empty in Hd.
  - apply suggested_vykony_from in Hv as [Hv|(diag & Hdiag & Hv)].
    + by apply elem_of_nil in Hv.
    + exists diag, v. split; [done|]. split; [done|].
      by eapply validates_code_schema_code.
Qed.

Lemma model_schema_accepts_mapped_codes_witness :
  ∃ diag v,
    diag ∈ get_codes (preprocess sample_services (empty_state "r")) ∧
    v ∈ candidates sample_services diag ∧
    item_code (vykon_json vykon_9543) = Some (code v).
Proof.
  apply (model_schema_accepts_mapped_codes (candidates sample_services)
           (preprocess sample_services (empty_state "r"))
           (vykon_json vykon_9543)).
  vm_compute. reflexivity.
Defined.

(** ** The co-occurrence table *)

Lemma fold_left_max_elem l : ∀ x, fold_left Z.max l x ∈ x :: l.
Proof.
  induction l as [|z l IH]; intros x; simpl; [apply list_elem_of_here|].
  pose proof (IH (Z.max x z)) as H. apply elem_of_cons in H as [H|H].
  - rewrite H. destruct (Z.max_spec x z) as [[_ ->]|[_ ->]].
    + apply list_elem_of_further, list_elem_of_here.
    + apply list_elem_of_here.
  - by apply list_elem_of_further, list_elem_of_further.
Qed.

Lemma column_max_attained vykony j :
  kody vykony ≠ [] →
  ∃ i, i ∈ kody vykony ∧ co_occurrence_matrix vykony i j = column_max vykony j.
Proof.
  intros Hne. unfold column_max, co_occurrence_column.
  destruct (kody vykony) as [|k ks] eqn:Hk; [done|]. cbn [map list_max].
  pose proof (fold_left_max_elem
                (map (fun i => co_occurrence_matrix vykony i j) ks)
                (co_occurrence_matrix vykony k j)) as H.
  change (co_occurrence_matrix vykony k j
          :: map (fun i => co_occurrence_matrix vykony i j) ks)
    with (map (fun i => co_occurrence_matrix vykony i j) (k :: ks)) in H.
  apply elem_of_map in H as (i & Hi & Hin). by exists i.
Qed.

Lemma sum_Z_zero l : (∀ x, x ∈ l → x = 0) → sum_Z l = 0.
Proof.
  induction l as [|x l IH]; intros Hall; simpl; [done|].
  rewrite (Hall x (list_elem_of_here _ _)), IH; [done|].
  intros y Hy. by apply Hall, list_elem_of_further.
Qed.

Lemma vykony_pivot_row vykony d k :
  vykony_pivot vykony d k ≠ 0 →
  ∃ r, r ∈ vykony ∧ CDOKL r = d ∧ KOD r = k.
Proof.
  unfold vykony_pivot. intros H.
  destruct (List.filter (fun r => (CDOKL r =? d) && (KOD r =? k)) vykony)
    as [|r rest] eqn:Hf; [done|].
  assert (In r (List.filter (fun r => (CDOKL r =? d) && (KOD r =? k)) vykony))
    as Hr by (rewrite Hf; apply in_eq).
  apply filter_In in Hr as [Hin Hb]. apply andb_prop in Hb as [Hd Hk].
  exists r. split; [by apply list_elem_of_In|]. lia.
Qed.

(** X17.  Co-occurrence range: for the codes of the table every strength
    lies between 0 and 1. *)
Theorem strength_in_unit_interval (vykony : list VykonRow) (a b : Z)
    (Ha : a ∈ kody vykony) (Hb : b ∈ kody vykony) :
  let df := co_occurrence_df_normalized vykony in
  (0 <= strength df a b)%Q ∧ (strength df a b <= 1)%Q.
Proof.
  cbn [strength cell co_occurrence_df_normalized].
  rewrite normalized_by_column_max by done.
  pose proof (co_occurrence_matrix_nonneg vykony a b) as Hlo.
  pose proof (column_max_ge vykony a b Ha) as Hhi.
  destruct (Z.eqb_spec (column_max vykony b) 0) as [Hmax|Hmax].
  - split; [apply Qle_refl | done].
  - assert (0 < inject_Z (column_max vykony b))%Q as Hpos.
    { change 0%Q with (inject_Z 0). rewrite <- Zlt_Qlt. lia. }
    split.
    + apply Qle_shift_div_l; [done|]. rewrite Qmult_0_l.
      change 0%Q with (inject_Z 0). by rewrite <- Zle_Qle.
    + apply Qle_shift_div_r; [done|]. rewrite Qmult_1_l.
      by rewrite <- Zle_Qle.
Qed.

Lemma strength_in_unit_interval_witness :
  let df := co_occurrence_df_normalized scenario_075 in
  (0 <= strength df 42022 100)%Q ∧ (strength df 42022 100 <= 1)%Q.
Proof.
  apply (strength_in_unit_interval scenario_075 42022 100).
  - apply (bool_decide_unpack _). vm_compute. exact I.
  - apply (bool_decide_unpack _). vm_compute. exact I.
Defined.

(** X18.  Two codes that no document of the billing table carries together
    have strength 0. *)
Theorem strength_of_codes_never_billed_together (vykony : list VykonRow)
    (a b : Z) (Hb : b ∈ kody vykony)
    (Hapart : ∀ r1 r2, r1 ∈ vykony → r2 ∈ vykony →
                       KOD r1 = a → KOD r2 = b → CDOKL r1 ≠ CDOKL r2) :
  (strength (co_occurrence_df_normalized vykony) a b == 0)%Q.
Proof.
  cbn [strength cell co_occurrence_df_normalized].
  rewrite normalized_by_column_max by done.
  assert (co_occurrence_matrix vykony a b = 0) as ->.
  { unfold co_occurrence_matrix. destruct (a =? b); [done|].
    apply sum_Z_zero. intros x Hx. apply elem_of_map in Hx as (d & -> & _).
    destruct (Z.eq_dec (vykony_pivot vykony d a) 0) as [->|Hna]; [done|].
    destruct (Z.eq_dec (vykony_pivot vykony d b) 0) as [->|Hnb]; [lia|].
    apply vykony_pivot_row in Hna as (r1 & Hr1 & Hd1 & Hk1).
    apply vykony_pivot_row in Hnb as (r2 & Hr2 & Hd2 & Hk2).
    destruct (Hapart r1 r2 Hr1 Hr2 Hk1 Hk2). congruence. }
  destruct (column_max vykony b =? 0); [reflexivity|].
  unfold Qdiv. apply Qmult_0_l.
Qed.

Lemma strength_of_codes_never_billed_together_witness :
  (strength (co_occurrence_df_normalized sample_counts) 2 3 == 0)%Q.
Proof.
  apply (strength_of_codes_never_billed_together sample_counts 2 3).
  - apply (bool_decide_unpack _). vm_compute. exact I.
  - intros r1 r2 Hr1 Hr2 H1 H2 Heq.
    unfold sample_counts in Hr1, Hr2.
    repeat (apply elem_of_cons in Hr1 as [->|Hr1];
            [try discriminate H1|]);
      try (by apply elem_of_nil in Hr1);
      repeat (apply elem_of_cons in Hr2 as [->|Hr2];
              [try discriminate H2; try discriminate Heq|]);
      by apply elem_of_nil in Hr2.
Defined.

(** X19.  Every column is scaled by its own maximum: in a column that is not
    all zero some code of the table has strength 1. *)
Theorem every_column_reaches_one (vykony : list VykonRow) (b : Z)
    (Hb : b ∈ kody vykony) (Hmax : column_max vykony b ≠ 0) :
  ∃ a, a ∈ kody vykony ∧
       (strength (co_occurrence_df_normalized vykony) a b == 1)%Q.
Proof.
  destruct (column_max_attained vykony b) as (a & Ha & Hcell).
  { intros Hnil. rewrite Hnil in Hb. by apply elem_of_nil in Hb. }
  exists a. split; [done|].
  cbn [strength cell co_occurrence_df_normalized].
  rewrite normalized_by_column_max by done.
  destruct (Z.eqb_spec (column_max vykony b) 0) as [?|_]; [done|].
  rewrite Hcell. apply Qmult_inv_r.
  intros H. apply Hmax. by apply inject_Z_injective.
Qed.

Lemma every_column_reaches_one_witness :
  ∃ a, a ∈ kody scenario_04 ∧
       (strength (co_occurrence_df_normalized scenario_04) a 100 == 1)%Q.
Proof.
  apply (every_column_reaches_one scenario_04 100).
  - apply (bool_decide_unpack _). vm_compute. exact I.
  - vm_compute. discriminate.
Defined.

(** ** [add_co_occurrence] *)

Lemma extend_to_add_raises df before c after : ∀ acc,
  Forall (fun a => a ∈ columns df) before →
  c ∉ columns df →
  extend_to_add df (before ++ c :: after) acc
  = Raise (KeyError (not_in_index c)).
Proof.
  induction before as [|a before IH]; intros acc Hall Hc.
  - cbn [app extend_to_add]. unfold codes_for.
    by rewrite bool_decide_eq_false_2.
  - apply Forall_cons in Hall as [Ha Hall]. cbn [app extend_to_add].
    destruct (codes_for_Ok df a Ha) as (found & -> & _).
    cbn [mbind result_bind]. by apply IH.
Qed.

Lemma codes_for_pivots df a found :
  codes_for df a = Ok found → ∀ c, c ∈ found → c ∈ pivots.
Proof.
  intros Hf c Hc. unfold codes_for in Hf. case_bool_decide as Ha; [|done].
  injection Hf as <-. apply elem_of_map in Hc as ([k x] & -> & Hk).
  rewrite sort_values_desc_elem in Hk.
  rewrite list_elem_of_In, !filter_In in Hk. destruct Hk as [[_ Hp] _].
  by apply bool_decide_eq_true in Hp.
Qed.

Lemma extend_to_add_pivots df codes : ∀ acc out,
  extend_to_add df codes acc = Ok out →
  ∀ c, c ∈ out → c ∈ acc ∨ c ∈ pivots.
Proof.
  induction codes as [|a codes IH]; intros acc out; cbn [extend_to_add].
  - intros [= <-] c Hc. by left.
  - destruct (codes_for df a) as [found|e] eqn:Hfound; [|done].
    cbn [mbind result_bind]. intros Hout c Hc.
    destruct (IH _ _ Hout c Hc) as [Hacc|?]; [|by right].
    destruct (0 <? length found)%nat; [|by left].
    apply elem_of_app in Hacc as [?|Hf]; [by left|].
    right. by eapply codes_for_pivots.
Qed.

Lemma to_add_codes_pivots df docs out :
  to_add_codes df docs = Ok out → ∀ c, c ∈ out → c ∈ pivots.
Proof.
  unfold to_add_codes, docs_codes. destruct docs as [|d docs]; [done|].
  cbn [mbind result_bind]. intros Hout c Hc.
  destruct (extend_to_add_pivots _ _ _ _ Hout c Hc) as [Hnil|?]; [|done].
  by apply elem_of_nil in Hnil.
Qed.


Lemma length_pivot_set (to_add : list Z) :
  (∀ c, c ∈ to_add → c ∈ pivots) →
  (length (elements (list_to_set to_add : gset Z)) ≤ 2)%nat.
Proof.
  intros Hsub.
  assert ((list_to_set to_add : gset Z) ⊆ list_to_set pivots) as Hsubset.
  { intros c Hc. apply elem_of_list_to_set in Hc.
    by apply elem_of_list_to_set, Hsub. }
  apply subseteq_size in Hsubset. unfold size, set_size in Hsubset.
  cbn [compose] in Hsubset. etrans; [exact Hsubset|]. vm_compute. lia.
Qed.

Lemma omap_lookup_codes (find_vykon_by_code : Z → option Vykon)
    (codes : list Z) :
  (∀ c valid, find_vykon_by_code c = Some valid → code valid = c) →
  NoDup codes →
  NoDup (map code (omap find_vykon_by_code codes)) ∧
  ∀ c, c ∈ map code (omap find_vykon_by_code codes) → c ∈ codes.
Proof.
  intros Hfind. induction codes as [|c codes IH]; intros Hnd.
  - split; [constructor|done].
  - apply NoDup_cons in Hnd as [Hc Hnd]. destruct (IH Hnd) as [IH1 IH2].
    cbn [omap list_omap].
    destruct (find_vykon_by_code c) as [valid|] eqn:Hf.
    + cbn [map]. rewrite (Hfind _ _ Hf). split.
      * apply NoDup_cons. split; [|done]. intros H. by apply Hc, IH2.
      * intros c' Hc'. apply elem_of_cons in Hc' as [->|Hc'].
        -- apply list_elem_of_here.
        -- by apply list_elem_of_further, IH2.
    + split; [done|]. intros c' Hc'. by apply list_elem_of_further, IH2.
Qed.

(** X20.  A retrieved code that is not a column of the co-occurrence table
    aborts the stage: the first such code raises [KeyError] with the message
    that the list with this code is not in the index ([[31] not in index]
    for the code 31), whatever the documents after it are. *)
Theorem add_co_occurrence_unknown_anchor (df : DataFrame)
    (find_vykon_by_code : Z → option Vykon) (before after : list Doc)
    (d : Doc) (state : AgentState)
    (Hbefore : Forall (fun d' => doc_code d' ∈ columns df) before)
    (Hd : doc_code d ∉ columns df) :
  add_co_occurrence df find_vykon_by_code (before ++ d :: after) state
  = Raise (KeyError (not_in_index (doc_code d))).
Proof.
  unfold add_co_occurrence, to_add_codes, docs_codes.
  assert (before ++ d :: after ≠ []) as Hne by (by destruct before).
  destruct (before ++ d :: after) as [|x rest] eqn:Hdocs; [done|].
  rewrite <- Hdocs. cbn [mbind result_bind].
  rewrite map_app. cbn [map]. rewrite extend_to_add_raises; [done| |done].
  apply Forall_forall. intros a Ha. apply elem_of_map in Ha as (d' & -> & Hd').
  by eapply Forall_forall in Hbefore.
Qed.

Lemma add_co_occurrence_unknown_anchor_witness :
  add_co_occurrence (co_occurrence_df_normalized scenario_075)
    (find_in_catalog sample_cis) ([mkDoc 100] ++ mkDoc 31 :: [mkDoc 5])
    (state_with [])
  = Raise (KeyError "[31] not in index").
Proof.
  apply (add_co_occurrence_unknown_anchor
           (co_occurrence_df_normalized scenario_075)
           (find_in_catalog sample_cis) [mkDoc 100] [mkDoc 5] (mkDoc 31)
           (state_with [])).
  - apply (bool_decide_unpack _). vm_compute. exact I.
  - apply (bool_decide_unpack _). vm_compute. exact I.
Defined.

(** X21.  When the stage completes it has kept the selection it found as the
    front of the new selection and appended at most two records; the report,
    the diagnoses and the verdicts in the state are untouched. *)
Theorem add_co_occurrence_appends_at_most_two (df : DataFrame)
    (find_vykon_by_code : Z → option Vykon) (docs : list Doc)
    (state final : AgentState)
    (Hok : add_co_occurrence df find_vykon_by_code docs state = Ok final) :
  (∃ added,
     get_vykony final = get_vykony state ++ added ∧
     (length added ≤ 2)%nat) ∧
  report final = report state ∧
  preprocess_diagnosis final = preprocess_diagnosis state ∧
  validity final = validity state.
Proof.
  unfold add_co_occurrence in Hok.
  destruct (to_add_codes df docs) as [to_add|e] eqn:Hto; [|done].
  cbn [mbind result_bind] in Hok. injection Hok as <-.
  split; [|done]. rewrite append_found_spec.
  eexists. split; [reflexivity|].
  etrans; [apply length_omap_le|]. apply length_pivot_set.
  by apply (to_add_codes_pivots df docs).
Qed.

Lemma add_co_occurrence_appends_at_most_two_witness :
  (∃ added,
     get_vykony (state_with [vykon_42022])
     = get_vykony (state_with []) ++ added ∧
     (length added ≤ 2)%nat) ∧
  report (state_with [vykon_42022]) = report (state_with []) ∧
  preprocess_diagnosis (state_with [vykon_42022])
  = preprocess_diagnosis (state_with []) ∧
  validity (state_with [vykon_42022]) = validity (state_with []).
Proof.
  apply (add_co_occurrence_appends_at_most_two
           (co_occurrence_df_normalized scenario_075)
           (find_in_catalog sample_cis) [mkDoc 100]).
  vm_compute. reflexivity.
Defined.

(** X22.  When no trigger code reaches the threshold against any retrieved
    code, the stage completes and the selection is the one it found. *)
Theorem add_co_occurrence_below_threshold (df : DataFrame)
    (find_vykon_by_code : Z → option Vykon) (docs : list Doc)
    (state : AgentState)
    (Hdocs : docs ≠ [])
    (Hcolumns : Forall (fun d => doc_code d ∈ columns df) docs)
    (Hbelow : ∀ p d, p ∈ pivots → d ∈ docs →
                     (strength df p (doc_code d) < threshold)%Q) :
  add_co_occurrence df find_vykon_by_code docs state
  = Ok (set_diagnosis state (get_vykony state)).
Proof.
  destruct (to_add_codes_Ok df docs Hdocs Hcolumns) as (to_add & Hto & Hmem).
  unfold add_co_occurrence. rewrite Hto. cbn [mbind result_bind].
  assert (to_add = []) as ->.
  { apply elem_of_nil_inv. intros c Hc.
    apply Hmem in Hc as (Hp & _ & d & Hd & Hle).
    apply (Qlt_not_le _ _ (Hbelow c d Hp Hd)). exact Hle. }
  rewrite append_found_spec. cbn [list_to_set foldr].
  rewrite elements_empty. cbn [omap list_omap]. by rewrite app_nil_r.
Qed.

Lemma add_co_occurrence_below_threshold_witness :
  add_co_occurrence (co_occurrence_df_normalized scenario_04)
    (find_in_catalog sample_cis) [mkDoc 100] (state_with [vykon_100])
  = Ok (set_diagnosis (state_with [vykon_100])
          (get_vykony (state_with [vykon_100]))).
Proof.
  apply (add_co_occurrence_below_threshold
           (co_occurrence_df_normalized scenario_04)
           (find_in_catalog sample_cis) [mkDoc 100] (state_with [vykon_100])).
  - discriminate.
  - apply (bool_decide_unpack _). vm_compute. exact I.
  - intros p d Hp Hd. apply list_elem_of_singleton in Hd. subst d.
    unfold pivots in Hp.
    repeat (apply elem_of_cons in Hp as [->|Hp]; [reflexivity|]).
    by apply elem_of_nil in Hp.
Defined.

(** X23.  For a catalogue lookup that answers a code with an entry of that
    code, the records that the stage appends carry trigger codes, each at
    most once. *)
Theorem add_co_occurrence_appends_distinct_triggers (df : DataFrame)
    (find_vykon_by_code : Z → option Vykon)
    (find_vykon_by_code_code :
       ∀ c valid, find_vykon_by_code c = Some valid → code valid = c)
    (docs : list Doc) (state final : AgentState)
    (Hok : add_co_occurrence df find_vykon_by_code docs state = Ok final) :
  ∃ added,
    get_vykony final = get_vykony state ++ added ∧
    NoDup (map code added) ∧
    ∀ c, c ∈ map code added → c ∈ pivots.
Proof.
  unfold add_co_occurrence in Hok.
  destruct (to_add_codes df docs) as [to_add|e] eqn:Hto; [|done].
  cbn [mbind result_bind] in Hok. injection Hok as <-.
  rewrite append_found_spec. eexists. split; [reflexivity|].
  destruct (omap_lookup_codes find_vykon_by_code
              (elements (list_to_set to_add : gset Z))
              find_vykon_by_code_code (NoDup_elements _)) as [Hnd Hsub].
  split; [done|]. intros c Hc. apply Hsub, elem_of_elements in Hc.
  apply elem_of_list_to_set in Hc. by apply (to_add_codes_pivots df docs to_add).
Qed.

Lemma add_co_occurrence_appends_distinct_triggers_witness :
  ∃ added,
    get_vykony (state_with [vykon_42022]) = get_vykony (state_with []) ++ added ∧
    NoDup (map code added) ∧
    ∀ c, c ∈ map code added → c ∈ pivots.
Proof.
  apply (add_co_occurrence_appends_distinct_triggers
           (co_occurrence_df_normalized scenario_075)
           (find_in_catalog sample_cis) (find_in_catalog_code sample_cis)
           [mkDoc 100]).
  vm_compute. reflexivity.
Defined.



(** ** The graph *)

Lemma add_edges_cons a b rest :
  add_edges (a :: b :: rest) = (a, b) :: add_edges (b :: rest).
Proof. done. Qed.

(** X25.  In a chain without repetition the loop over [edge_chain] gives
    every stage one edge out, to the stage that follows it in the chain, and
    gives the last stage none. *)
Theorem add_edges_successor (chain before rest : list string) (a : string)
    (Hchain : chain = before ++ a :: rest) (Hdistinct : NoDup chain) :
  assoc a (add_edges chain) = head rest.
Proof.
  subst chain. induction before as [|x before IH].
  - cbn [app]. destruct rest as [|b rest]; [done|].
    rewrite add_edges_cons. cbn [assoc]. by rewrite String.eqb_refl.
  - cbn [app] in *. apply NoDup_cons in Hdistinct as [Hx Hnd].
    destruct (before ++ a :: rest) as [|y tail] eqn:Htail.
    { by destruct before. }
    rewrite add_edges_cons. cbn [assoc].
    destruct (String.eqb_spec x a) as [->|Hne].
    + exfalso. apply Hx. rewrite <- Htail. apply elem_of_app. right.
      apply list_elem_of_here.
    + by apply IH.
Qed.

Lemma add_edges_successor_witness :
  assoc "validate" (add_edges edge_chain) = head ["clear"; "add_co_occurrence"].
Proof.
  apply (add_edges_successor edge_chain ["__start__"; "preprocess"; "model"]
           ["clear"; "add_co_occurrence"] "validate").
  - reflexivity.
  - apply (bool_decide_unpack _). vm_compute. exact I.
Defined.

(** X26.  A run that completes has not rewritten the report: the
    abbreviation stage is a node of the graph that no edge reaches.  The
    diagnoses in the final state are those of the diagnosis service for that
    report, and the state holds a selection and the verdicts. *)
Theorem graph_keeps_the_report (env : Services) (state final : AgentState)
    (Hok : graph env state = Ok final) :
  report final = report state ∧
  preprocess_diagnosis final = Some (diagnosis_service env (report state)) ∧
  is_Some (diagnosis final) ∧ is_Some (validity final).
Proof.
  rewrite graph_runs_the_chain in Hok. unfold add_co_occurrence in Hok.
  destruct (to_add_codes _ _) as [to_add|e]; [|done].
  cbn [mbind result_bind] in Hok. injection Hok as <-.
  cbn. eauto.
Qed.

Lemma graph_keeps_the_report_witness :
  report sample_final = report (empty_state "r") ∧
  preprocess_diagnosis sample_final
  = Some (diagnosis_service sample_services (report (empty_state "r"))) ∧
  is_Some (diagnosis sample_final) ∧ is_Some (validity sample_final).
Proof.
  apply (graph_keeps_the_report sample_services (empty_state "r") sample_final).
  vm_compute. reflexivity.
Defined.


(** X28.  A run depends on the report alone: the diagnoses, the selection
    and the verdicts that the initial state may hold are overwritten before
    any stage reads them. *)
Theorem graph_reads_the_report_only (env : Services)
    (state state' : AgentState) (Hreport : report state = report state') :
  graph env state = graph env state'.
Proof.
  rewrite !graph_runs_the_chain.
  destruct state as [r pd dg va], state' as [r' pd' dg' va'].
  cbn [report] in Hreport. subst r'. reflexivity.
Qed.

Lemma graph_reads_the_report_only_witness :
  graph sample_services (empty_state "report")
  = graph sample_services (state_with sample_selection).
Proof.
  apply (graph_reads_the_report_only sample_services (empty_state "report")
           (state_with sample_selection)).
  reflexivity.
Defined.

(** ** [Configuration.from_runnable_config] *)

(** X29.  Without a config, with an empty one, or with one whose
    ["configurable"] entry is missing or false ([None], an empty
    dictionary), the configuration is the four default prompts. *)
Theorem from_runnable_config_defaults (defaults : Configuration)
    (config : option (list (string * json)))
    (Hnone :
       ∀ fields value,
         config = Some fields → field "configurable" fields = Some value →
         json_truthy value = false) :
  from_runnable_config defaults config = Some defaults.
Proof.
  assert (model_validate defaults (JObj []) = Some defaults) as Hdefault
    by (by destruct defaults).
  unfold from_runnable_config.
  destruct config as [[|entry fields]|]; [done| |done].
  destruct (field "configurable" (entry :: fields)) as [value|] eqn:Hvalue;
    [|done].
  by rewrite (Hnone _ _ eq_refl Hvalue).
Qed.

Lemma from_runnable_config_defaults_witness :
  from_runnable_config (mkConfiguration "s" "p" "v" "h")
    (Some [("recursion_limit", JInt 25); ("configurable", JNull)])
  = Some (mkConfiguration "s" "p" "v" "h").
Proof.
  apply (from_runnable_config_defaults (mkConfiguration "s" "p" "v" "h")
           (Some [("recursion_limit", JInt 25); ("configurable", JNull)])).
  intros fields value [= <-] Hvalue. vm_compute in Hvalue.
  by injection Hvalue as <-.
Defined.

(** X30.  A prompt given as a string under ["configurable"] replaces the
    default of that prompt and of no other; entries of ["configurable"] that
    are not prompts are ignored. *)
Theorem from_runnable_config_overrides (defaults : Configuration)
    (config configurable : list (string * json)) (prompt : string)
    (Hconfigurable : field "configurable" config = Some (JObj configurable))
    (Hsystem : field "system_prompt" configurable = Some (JStr prompt))
    (Hpreprocess : field "preprocess_prompt" configurable = None)
    (Hvalidate : field "validate_prompt" configurable = None)
    (Hhuman : field "validate_human_prompt" configurable = None) :
  from_runnable_config defaults (Some config)
  = Some {| system_prompt := prompt;
            preprocess_prompt := preprocess_prompt defaults;
            validate_prompt := validate_prompt defaults;
            validate_human_prompt := validate_human_prompt defaults |}.
Proof.
  unfold from_runnable_config.
  destruct config as [|entry config]; [done|]. rewrite Hconfigurable.
  destruct configurable as [|first configurable]; [done|].
  cbn [json_truthy model_validate]. unfold prompt_field.
  by rewrite Hsystem, Hpreprocess, Hvalidate, Hhuman.
Qed.

Lemma from_runnable_config_overrides_witness :
  from_runnable_config (mkConfiguration "s" "p" "v" "h")
    (Some [("configurable",
            JObj [("thread_id", JInt 7); ("system_prompt", JStr "custom")])])
  = Some {| system_prompt := "custom"; preprocess_prompt := "p";
            validate_prompt := "v"; validate_human_prompt := "h" |}.
Proof.
  apply (from_runnable_config_overrides (mkConfiguration "s" "p" "v" "h")
           [("configurable",
             JObj [("thread_id", JInt 7); ("system_prompt", JStr "custom")])]
           [("thread_id", JInt 7); ("system_prompt", JStr "custom")]
           "custom");
    reflexivity.
Defined.
